(** * Drift Radar: the scoring engine and the baseline aggregator

    A shallow embedding of [analyze.ts], [utils.ts], the pure part of
    [baseline.ts] and the two paginated listings of [github.ts].

    Modelling choices.
    - File counters and line totals ([F], [L], [C], ...) are JavaScript
      numbers that only ever hold integers: they are [Z] here.
    - Every other [number] (sub-scores, [base], [amp], [score],
      [reviewMinutes], contributions, the values [median] works on) is a
      real number: [Math.log], [Math.sqrt], [Math.round], [Math.max] and
      [Math.min] are the functions of real analysis.  IEEE-754 rounding
      error, infinities and NaN are outside this model.
    - Strings are [string]s of 8-bit characters; [toLowerCase] maps the
      ASCII capitals only.
    - A [Set<string>] is a duplicate-free list in insertion order, a
      [Map<string, _>] an association list in first-insertion order, as
      their iteration order is observable in the source. *)

From Stdlib Require Import ZArith List String Ascii Bool Lia Permutation Sorted.
From Stdlib Require Import Reals Lra.
From Stdlib Require Import DecimalString DecimalPos DecimalZ.
Import ListNotations.

Local Open Scope Z_scope.

(** ** utils.ts: strings *)

Module Str.

Definition lowerChar (c : ascii) : ascii :=
  let n := nat_of_ascii c in
  if (Nat.leb 65 n && Nat.leb n 90)%bool then ascii_of_nat (n + 32) else c.

Fixpoint toLowerCase (s : string) : string :=
  match s with
  | EmptyString => EmptyString
  | String c s' => String (lowerChar c) (toLowerCase s')
  end.

Fixpoint startsWith (pre s : string) : bool :=
  match pre, s with
  | EmptyString, _ => true
  | String _ _, EmptyString => false
  | String a pre', String b s' => Ascii.eqb a b && startsWith pre' s'
  end.

Fixpoint includes (sub s : string) : bool :=
  startsWith sub s ||
  match s with
  | EmptyString => false
  | String _ s' => includes sub s'
  end.

Definition endsWith (suf s : string) : bool :=
  let n := String.length s in
  let m := String.length suf in
  Nat.leb m n && String.eqb (substring (n - m) m s) suf.

End Str.

(** A JavaScript [Set<string>]: insertion-ordered, no duplicates. *)

Module JSSet.

Definition t := list string.

Definition has (s : t) (x : string) : bool := existsb (String.eqb x) s.

Definition add (s : t) (x : string) : t := if has s x then s else s ++ [x].

Definition of_list (l : list string) : t := fold_left add l [].

End JSSet.

(** ** utils.ts: path predicates *)

Section PathPredicates.

Local Open Scope string_scope.
Import Str.

Definition isDocsPath (p : string) : bool :=
  let lower := toLowerCase p in
  if startsWith "docs/" lower then true
  else if endsWith ".md" lower then true
  else if startsWith "readme" lower then true
  else false.

Definition isInfraPath (p : string) : bool :=
  let lower := toLowerCase p in
  if startsWith ".github/" lower then true
  else if String.eqb lower "dockerfile" then true
  else if startsWith "terraform/" lower then true
  else if endsWith ".yml" lower || endsWith ".yaml" lower then true
  else if endsWith ".tf" lower then true
  else false.

Definition isCorePath (p : string) : bool :=
  let lower := toLowerCase p in
  startsWith "src/" lower || startsWith "lib/" lower || startsWith "app/" lower.

Definition isTestsPath (p : string) : bool :=
  let lower := toLowerCase p in
  startsWith "tests/" lower || includes "/__tests__/" lower
  || startsWith "__tests__/" lower.

Definition depsFiles : JSSet.t :=
  [ "package.json"; "package-lock.json"; "pnpm-lock.yaml"; "yarn.lock";
    "poetry.lock"; "requirements.txt"; "pipfile.lock" ].

Definition isDepsPath (p : string) : bool :=
  let lower := toLowerCase p in
  JSSet.has depsFiles lower.

End PathPredicates.

(** ** analyze.ts: data *)

Record PRFile := mkFile {
  filename : string;
  additions : Z;
  deletions : Z
}.

(** The counters of [ClassifiedCounts]; [cI] is the source's [I]. *)
Record ClassifiedCounts := mkCounts {
  cF : Z;
  cL : Z;
  cC : Z;
  cT : Z;
  cD : Z;
  cI : Z;
  cH : Z;
  docsOnly : bool;
  testCoverage : R
}.

(** ** analyze.ts: classifyFiles *)

(** [x || 0] on a number: a falsy number is replaced by [0]. *)
Definition orZero (x : Z) : Z := if x =? 0 then 0 else x.

(** The mutable locals of [classifyFiles]. *)
Record Tally := mkTally {
  tF : Z; tL : Z; tC : Z; tT : Z; tD : Z; tI : Z; tH : Z;
  docsCount : Z
}.

Definition tally0 : Tally := mkTally 0 0 0 0 0 0 0 0.

Definition bump (b : bool) (n : Z) : Z := if b then n + 1 else n.

(** One iteration of the [for (const f of files)] loop. *)
Definition classifyStep (hotspotSet : JSSet.t) (t : Tally) (f : PRFile) : Tally :=
  let lines := orZero (additions f) + orZero (deletions f) in
  let path := filename f in
  mkTally (tF t + 1)
          (tL t + lines)
          (bump (isCorePath path) (tC t))
          (bump (isTestsPath path) (tT t))
          (bump (isDepsPath path) (tD t))
          (bump (isInfraPath path) (tI t))
          (bump (JSSet.has hotspotSet path) (tH t))
          (bump (isDocsPath path) (docsCount t)).

Definition classifyLoop (hotspotSet : JSSet.t) (files : list PRFile) : Tally :=
  fold_left (classifyStep hotspotSet) files tally0.

Definition classifyFiles (files : list PRFile) (hotspotSet : JSSet.t)
  : ClassifiedCounts :=
  let t := classifyLoop hotspotSet files in
  let len := Z.of_nat (List.length files) in
  let docsOnly := (len >? 0) && (docsCount t =? len) in
  let testCoverage := (IZR (tT t) / Rmax 1 (IZR (tC t)))%R in
  mkCounts (tF t) (tL t) (tC t) (tT t) (tD t) (tI t) (tH t)
           docsOnly testCoverage.

(** Counting, as used to describe what the loop computes: the number of
    files a test accepts, and the changed lines of one file. *)

Definition countIf (p : PRFile -> bool) (l : list PRFile) : Z :=
  Z.of_nat (List.length (filter p l)).

Definition linesOf (f : PRFile) : Z :=
  orZero (additions f) + orZero (deletions f).

(** ** utils.ts: numbers *)

Section Numbers.

Local Open Scope R_scope.

Definition clamp (min max v : R) : R := Rmax min (Rmin max v).

Definition log10 (x : R) : R := ln x / ln 10.

(** [Math.round]: the nearest integer, halves going up. *)
Definition round (n : R) : R := IZR (Zfloor (n + 0.5)).

End Numbers.

(** [Array.prototype.sort(compare)] is a stable sort.  [after a b] stands
    for [compare(a, b) > 0], "a must come after b".  Stable insertion from
    the right: an element moves behind exactly those later elements it
    must come after. *)

Section Sort.

Context {A : Type} (after : A -> A -> bool).

Fixpoint insertSorted (x : A) (l : list A) : list A :=
  match l with
  | [] => [x]
  | y :: ys => if after x y then y :: insertSorted x ys else x :: l
  end.

Fixpoint sortBy (l : list A) : list A :=
  match l with
  | [] => []
  | x :: xs => insertSorted x (sortBy xs)
  end.

End Sort.

Definition Rgtb (x y : R) : bool := if Rlt_dec y x then true else false.
Definition Rgeb (x y : R) : bool := if Rle_dec y x then true else false.
Definition Rleb (x y : R) : bool := if Rle_dec x y then true else false.
Definition Rltb (x y : R) : bool := if Rlt_dec x y then true else false.

(** ** analyze.ts: scores *)

Inductive Verdict := Green | Yellow | Red.

Record Scores := mkScores {
  S_size : R;
  S_deps : R;
  S_infra : R;
  S_hot : R;
  S_quality : R;
  base : R;
  amp : R;
  score : R;
  reviewMinutes : R;
  verdictEmoji : Verdict
}.

Section ScoreEngine.

Local Open Scope R_scope.

Definition computeReviewMinutes (F L C T D I H : Z) : R :=
  let sizeUnits := sqrt (Rmax 0 (IZR L)) + 2 * IZR F in
  let m_core := 1 + 0.15 * Rmin 5 (IZR C) in
  let m_infra := 1 + 0.2 * Rmin 3 (IZR I) in
  let m_deps := 1 + 0.25 * Rmin 2 (IZR D) in
  let m_hot := 1 + 0.1 * Rmin 5 (IZR H) in
  let m_tests := 1 - 0.1 * Rmin 3 (IZR T) in
  let raw := (sizeUnits / 12) * m_core * m_infra * m_deps * m_hot * m_tests in
  clamp 5 90 (round raw).

Definition computeScores (counts : ClassifiedCounts) : Scores :=
  let F := cF counts in let L := cL counts in let C := cC counts in
  let T := cT counts in let D := cD counts in let I := cI counts in
  let H := cH counts in
  let testCoverage := testCoverage counts in
  let docsOnly := docsOnly counts in
  let S_size := clamp 0 100 (8 * IZR F + 12 * log10 (1 + Rmax 0 (IZR L))) in
  let S_deps := clamp 0 100 (35 * IZR D) in
  let S_infra := clamp 0 100 (25 * IZR I) in
  let S_hot := clamp 0 100 (20 * IZR H) in
  let S_quality := clamp 0 100 (60 * (1 - Rmin 1 testCoverage)) in
  let base := 0.35 * S_size + 0.2 * S_quality + 0.2 * S_deps
              + 0.15 * S_infra + 0.1 * S_hot in
  let amp := 1 in
  let amp := if ((C >? 0) && (T =? 0))%Z%bool then amp + 0.15 else amp in
  let amp := if ((D >? 0) && (I >? 0))%Z%bool then amp + 0.1 else amp in
  let amp := if ((C >? 0) && (D >? 0))%Z%bool then amp + 0.1 else amp in
  let amp := if (H >=? 2)%Z then amp + 0.05 else amp in
  let amp := Rmin 1.4 amp in
  let score := clamp 0 100 (round (base * amp)) in
  let score := if docsOnly then Rmin score 25 else score in
  let verdictEmoji :=
    if Rleb score 39 then Green else if Rleb score 69 then Yellow else Red in
  let reviewMinutes := computeReviewMinutes F L C T D I H in
  mkScores S_size S_deps S_infra S_hot S_quality base amp score
           reviewMinutes verdictEmoji.

End ScoreEngine.

(** ** analyze.ts: drivers *)

Inductive DriverKey :=
| CoreChangedWithoutTests
| DependencyChurn
| InfraConfigTouched
| HotspotRepeatedlyModified
| LargeChangeSize
| LowTestCoverage.

Definition DriverKey_eqb (a b : DriverKey) : bool :=
  match a, b with
  | CoreChangedWithoutTests, CoreChangedWithoutTests
  | DependencyChurn, DependencyChurn
  | InfraConfigTouched, InfraConfigTouched
  | HotspotRepeatedlyModified, HotspotRepeatedlyModified
  | LargeChangeSize, LargeChangeSize
  | LowTestCoverage, LowTestCoverage => true
  | _, _ => false
  end.

(** The string each key stands for in the source. *)
Definition keyName (k : DriverKey) : string :=
  match k with
  | CoreChangedWithoutTests => "Core changed without tests"
  | DependencyChurn => "Dependency churn"
  | InfraConfigTouched => "Infra/config touched"
  | HotspotRepeatedlyModified => "Hotspot repeatedly modified"
  | LargeChangeSize => "Large change size"
  | LowTestCoverage => "Low test coverage"
  end.

Record Driver := mkDriver {
  key : DriverKey;
  label : string;
  contribution : R
}.

(** The [Map<string, Driver>] of [pickDrivers], in first-insertion order. *)
Module DriverMap.

Definition t := list (DriverKey * Driver).

Fixpoint get (m : t) (k : DriverKey) : option Driver :=
  match m with
  | [] => None
  | (k', d) :: m' => if DriverKey_eqb k k' then Some d else get m' k
  end.

(** [set] on a present key replaces the value where it stands. *)
Fixpoint set (m : t) (k : DriverKey) (d : Driver) : t :=
  match m with
  | [] => [(k, d)]
  | (k', d') :: m' =>
      if DriverKey_eqb k k' then (k', d) :: m' else (k', d') :: set m' k d
  end.

Definition values (m : t) : list Driver := map snd m.

End DriverMap.

Section Drivers.

Local Open Scope R_scope.
Local Open Scope string_scope.

(** The array [drivers] after all the [push]es. *)
Definition driverCandidates (counts : ClassifiedCounts) (scores : Scores)
  : list Driver :=
  let C := cC counts in let T := cT counts in let D := cD counts in
  let I := cI counts in let H := cH counts in
  let coreNoTests := ((C >? 0) && (T =? 0))%Z%bool in
  let contribLarge := 0.35 * S_size scores in
  let qualityBase := 0.2 * S_quality scores in
  let bonusCoreNoTests := if coreNoTests then 12 else 0 in
  let contribLowTests :=
    qualityBase + (if Rltb (testCoverage counts) 1 then 0 else 0)
    + bonusCoreNoTests in
  let depsBase := 0.2 * S_deps scores in
  let bonusDepsInfra := if ((D >? 0) && (I >? 0))%Z%bool then 6 else 0 in
  let bonusDepsCore := if ((C >? 0) && (D >? 0))%Z%bool then 6 else 0 in
  let contribDeps := depsBase + bonusDepsInfra + bonusDepsCore in
  let infraBase := 0.15 * S_infra scores in
  let contribInfra := infraBase in
  let hotBase := 0.1 * S_hot scores in
  let bonusHot := if (H >=? 2)%Z then 3 else 0 in
  let contribHot := hotBase + bonusHot in
  (if coreNoTests
   then [mkDriver CoreChangedWithoutTests "Core code modified without tests"
                  (bonusCoreNoTests + 0.15 * 100)]
   else [])
  ++ [mkDriver LargeChangeSize "Large change size" contribLarge]
  ++ (if Rltb (testCoverage counts) 1
      then [mkDriver LowTestCoverage "Low test coverage" contribLowTests]
      else [])
  ++ (if (D >? 0)%Z
      then [mkDriver DependencyChurn "Dependency churn above baseline" contribDeps]
      else [])
  ++ (if (I >? 0)%Z
      then [mkDriver InfraConfigTouched "Infra/config touched" contribInfra]
      else [])
  ++ (if (H >? 0)%Z
      then [mkDriver HotspotRepeatedlyModified
                     "Repeated changes in hotspot folders" contribHot]
      else []).

(** One iteration of [for (const d of drivers)]. *)
Definition bestByKeyStep (m : DriverMap.t) (d : Driver) : DriverMap.t :=
  match DriverMap.get m (key d) with
  | None => DriverMap.set m (key d) d
  | Some existing =>
      if Rgtb (contribution d) (contribution existing)
      then DriverMap.set m (key d) d
      else m
  end.

Definition bestByKey (drivers : list Driver) : DriverMap.t :=
  fold_left bestByKeyStep drivers [].

(** [(a, b) => b.contribution - a.contribution] is positive. *)
Definition byContributionDesc (a b : Driver) : bool :=
  Rgtb (contribution b - contribution a) 0.

Definition rankDrivers (drivers : list Driver) : list Driver :=
  firstn 3 (sortBy byContributionDesc (DriverMap.values (bestByKey drivers))).

Definition pickDrivers (counts : ClassifiedCounts) (scores : Scores)
  : list Driver :=
  rankDrivers (driverCandidates counts scores).

End Drivers.

(** ** analyze.ts: actions and [analyze] *)

Section Actions.

Local Open Scope string_scope.

Definition suggestedActions (counts : ClassifiedCounts) (score : R)
  : list string :=
  let C := cC counts in let T := cT counts in
  let D := cD counts in let I := cI counts in
  if docsOnly counts then ["No action needed (docs-only change)"]
  else
    let actions : list string := [] in
    let actions :=
      if ((C >? 0) && (T =? 0))%Z%bool then (actions ++ ["Add targeted tests"])%list
      else actions in
    let actions :=
      if Rgeb score 70 then (actions ++ ["Split this PR"])%list
      else if (Rgeb score 40 && ((D >? 0) || (I >? 0)))%Z%bool
           then (actions ++ ["Add a focused review checklist"])%list
           else actions in
    let actions :=
      if (List.length actions =? 0)%nat
      then (actions ++ ["Proceed with normal review"])%list
      else actions in
    firstn 2 actions.

End Actions.

Record AnalyzeResult := mkResult {
  counts : ClassifiedCounts;
  scores : Scores;
  driversTop3 : list Driver;
  suggested : list string
}.

Definition analyze (files : list PRFile) (hotspotSet : JSSet.t)
  : AnalyzeResult :=
  let counts := classifyFiles files hotspotSet in
  let scores := computeScores counts in
  let driversTop3 := pickDrivers counts scores in
  let suggested := suggestedActions counts (score scores) in
  mkResult counts scores driversTop3 suggested.

(** ** utils.ts: median *)

(** [(x, y) => x - y] is positive. *)
Definition byValueAsc (x y : R) : bool := Rgtb (x - y) 0.

(** [a[i]] is only read in range below; [0] stands for [undefined]. *)
Definition median (nums : list R) : option R :=
  if (List.length nums =? 0)%nat then None
  else
    let a := sortBy byValueAsc nums in
    let mid := (List.length a / 2)%nat in
    if (List.length a mod 2 =? 0)%nat
    then Some ((nth (mid - 1) a 0 + nth mid a 0) / 2)%R
    else Some (nth mid a 0%R).

(** ** baseline.ts: the aggregation of [computeBaseline]

    The requests to the hosting platform are outside the model:
    [computeBaseline] receives, for each merged change that
    [listMergedPulls] returned, the file list [listPullFiles] gives for
    it, in the same order.  [computedAt] (the wall clock) is left out. *)

(** The [Map<string, number>] named [freq], in first-insertion order. *)
Module FreqMap.

Definition t := list (string * Z).

Fixpoint get (m : t) (k : string) : option Z :=
  match m with
  | [] => None
  | (k', c) :: m' => if String.eqb k k' then Some c else get m' k
  end.

Fixpoint set (m : t) (k : string) (c : Z) : t :=
  match m with
  | [] => [(k, c)]
  | (k', c') :: m' =>
      if String.eqb k k' then (k', c) :: m' else (k', c') :: set m' k c
  end.

(** [m.get(k) ?? 0] *)
Definition getOr0 (m : t) (k : string) : Z :=
  match get m k with Some c => c | None => 0 end.

End FreqMap.

Record BaselineData := mkBaseline {
  historyN : nat;
  baselineMedianScore : option R;
  hotspotFiles : list string
}.

(** [freq.set(f.filename, (freq.get(f.filename) ?? 0) + 1)] *)
Definition touch (freq : FreqMap.t) (f : PRFile) : FreqMap.t :=
  FreqMap.set freq (filename f) (FreqMap.getOr0 freq (filename f) + 1).

(** One iteration of [for (const prNumber of toProcess)]. *)
Definition baselineStep (st : FreqMap.t * list R) (files : list PRFile)
  : FreqMap.t * list R :=
  let freq := fold_left touch files (fst st) in
  let res := analyze files [] in
  (freq, snd st ++ [score (scores res)]).

(** [(a, b) => b[1] - a[1]] is positive. *)
Definition byCountDesc (a b : string * Z) : bool := snd b - snd a >? 0.

Definition top10Of (entries : FreqMap.t) : list string :=
  map fst (firstn 10 entries).

Definition thresholdOf (entries : FreqMap.t) : list string :=
  map fst (filter (fun e => snd e >=? 3) entries).

Definition hotspotsOf (freq : FreqMap.t) : JSSet.t :=
  let entries := sortBy byCountDesc freq in
  JSSet.of_list (top10Of entries ++ thresholdOf entries).

Definition computeBaseline (historyN : nat) (merged : list (list PRFile))
  : BaselineData :=
  if (List.length merged =? 0)%nat then mkBaseline historyN None []
  else
    let toProcess := firstn historyN merged in
    let '(freq, scores) := fold_left baselineStep toProcess ([], []) in
    mkBaseline historyN (median scores) (hotspotsOf freq).

(** The frequency table [computeBaseline] builds from a window. *)
Definition freqTable (window : list (list PRFile)) : FreqMap.t :=
  fst (fold_left baselineStep window ([], [])).

(** The touch frequency of a path, stated without the map: the number
    of file records in the window that carry it (the number of changes
    touching it, as no change lists a path twice). *)
Definition occurrences (p : string) (fs : list PRFile) : Z :=
  Z.of_nat (List.length (filter (fun f => String.eqb p (filename f)) fs)).

Definition freqOf (window : list (list PRFile)) (p : string) : Z :=
  occurrences p (List.concat window).

Definition descCount (a b : string * Z) : Prop := snd b <= snd a.

(** ** Concrete inputs used in the scenarios below *)

Definition fileA : PRFile := mkFile "src/a.ext" 50 10.

Definition fileB : PRFile := mkFile "docs/readme.ext" 5 2.

Definition fileDocCore : PRFile := mkFile "src/readme.md" 50 10.

Definition noActionNeeded : string := "No action needed (docs-only change)".

(** [Before x y l]: some occurrence of [x] in [l] comes before some
    occurrence of [y]. *)
Inductive Before {A : Type} (x y : A) : list A -> Prop :=
| Before_here : forall l, In y l -> Before x y (x :: l)
| Before_later : forall z l, Before x y l -> Before x y (z :: l).

(** The orders in which a ranked driver list can be said to descend. *)
Definition descStrict (a b : Driver) : Prop :=
  (contribution b < contribution a)%R.

Definition descWeak (a b : Driver) : Prop :=
  (contribution b <= contribution a)%R.

Definition fileManifest : PRFile := mkFile "package.json" 5 4.

(** Scenario C: [src/a.ext] touched by three changes, [infra/x.yml] by
    one; once as four changes, once with the third change touching both. *)
Definition fileHistA : PRFile := mkFile "src/a.ext" 10 2.
Definition fileHistX : PRFile := mkFile "infra/x.yml" 3 1.

Definition windowC : list (list PRFile) :=
  [[fileHistA]; [fileHistA]; [fileHistA]; [fileHistX]].

Definition windowC3 : list (list PRFile) :=
  [[fileHistA]; [fileHistA]; [fileHistA; fileHistX]].

(** What the map of [pickDrivers] holds after the drivers [seen] went
    through the de-duplication loop. *)
Definition bestInv (seen : list Driver) (m : DriverMap.t) : Prop :=
  NoDup (map fst m)
  /\ (forall k d, DriverMap.get m k = Some d -> key d = k /\ In d seen)
  /\ (forall d', In d' seen ->
        exists d, DriverMap.get m (key d') = Some d
                  /\ (contribution d' <= contribution d)%R).

(** The scores [computeBaseline] collects from a window: each change is
    analysed with the empty hotspot set. *)
Definition historicalScores (window : list (list PRFile)) : list R :=
  map (fun files => score (scores (analyze files []))) window.

(** ** github.ts: the paginated listings

    A request is a read of the platform's listing: [fetch page] is the
    array the platform answers for that page (pages count from 1).
    Failed requests (exceptions) are outside the model.  The [while]
    loops run on fuel, one unit per request; [None] means the fuel ran
    out before the loop ended. *)

(** An item of the files listing; [None] is a missing ([null] or
    [undefined]) count. *)
Record RawFile := mkRawFile {
  raw_filename : string;
  raw_additions : option Z;
  raw_deletions : option Z
}.

(** [Number(x ?? 0)] *)
Definition orDefault0 (x : option Z) : Z :=
  match x with Some v => v | None => 0 end.

Definition toPRFile (it : RawFile) : PRFile :=
  mkFile (raw_filename it) (orDefault0 (raw_additions it))
         (orDefault0 (raw_deletions it)).

Fixpoint listPullFilesLoop (fetch : nat -> list RawFile)
         (fuel page : nat) (out : list PRFile) : option (list PRFile) :=
  match fuel with
  | O => None
  | S fuel' =>
      let items := fetch page in
      let out := out ++ map toPRFile items in
      if (List.length items <? 100)%nat then Some out
      else listPullFilesLoop fetch fuel' (page + 1) out
  end.

Definition listPullFiles (fetch : nat -> list RawFile) (fuel : nat)
  : option (list PRFile) :=
  listPullFilesLoop fetch fuel 1%nat [].

(** An item of the closed pull requests listing; [pr_merged] tells
    whether [merged_at] is set. *)
Record RawPull := mkRawPull {
  pr_number : Z;
  pr_merged : bool
}.

(** The [for (const pr of items)] loop of [listMergedPulls]. *)
Fixpoint scanPulls (n : nat) (items : list RawPull) (mergedNumbers : list Z)
  : list Z :=
  match items with
  | [] => mergedNumbers
  | pr :: rest =>
      let mergedNumbers :=
        if pr_merged pr then mergedNumbers ++ [pr_number pr]
        else mergedNumbers in
      if (n <=? List.length mergedNumbers)%nat then mergedNumbers
      else scanPulls n rest mergedNumbers
  end.

Fixpoint listMergedPullsLoop (fetch : nat -> list RawPull) (n : nat)
         (fuel page : nat) (mergedNumbers : list Z) : option (list Z) :=
  if (List.length mergedNumbers <? n)%nat then
    match fuel with
    | O => None
    | S fuel' =>
        let items := fetch page in
        if (List.length items =? 0)%nat then Some (firstn n mergedNumbers)
        else
          let mergedNumbers := scanPulls n items mergedNumbers in
          if (List.length items <? 50)%nat
          then Some (firstn n mergedNumbers)
          else listMergedPullsLoop fetch n fuel' (page + 1) mergedNumbers
    end
  else Some (firstn n mergedNumbers).

Definition listMergedPulls (fetch : nat -> list RawPull) (n : nat)
           (fuel : nat) : option (list Z) :=
  listMergedPullsLoop fetch n fuel 1%nat [].

(** The pages 1 to [k] of a listing, one after the other. *)
Definition pagesUpTo {A : Type} (fetch : nat -> list A) (k : nat) : list A :=
  List.concat (map fetch (seq 1 k)).

(** The numbers of the merged pull requests of a listing, in order. *)
Definition mergedOf (items : list RawPull) : list Z :=
  map pr_number (filter pr_merged items).

(** Two one-page listings, used to instantiate the pagination facts. *)
Definition sampleFilesListing (page : nat) : list RawFile :=
  if (page =? 1)%nat
  then [mkRawFile "src/a.ts" (Some 3) None; mkRawFile "README.md" None None]
  else [].

Definition samplePullsListing (page : nat) : list RawPull :=
  if (page =? 1)%nat
  then [mkRawPull 12 true; mkRawPull 11 false; mkRawPull 10 true;
        mkRawPull 9 true]
  else [].

(** ** utils.ts: formatSigned

    On whole numbers, the only ones [main.ts] passes (a score minus a
    rounded median): a template literal prints them in decimal, with a
    minus sign when negative. *)
Definition numberToString (n : Z) : string :=
  DecimalString.NilZero.string_of_int (Z.to_int n).

Definition formatSigned (n : Z) : string :=
  if n >? 0 then String "+" (numberToString n) else numberToString n.

(** A window with more than 10 distinct paths: one change touches
    [lib/f01.ts] to [lib/f12.ts], two further changes touch
    [lib/f12.ts] again. *)
Definition widePaths : list string :=
  [ "lib/f01.ts"; "lib/f02.ts"; "lib/f03.ts"; "lib/f04.ts"; "lib/f05.ts";
    "lib/f06.ts"; "lib/f07.ts"; "lib/f08.ts"; "lib/f09.ts"; "lib/f10.ts";
    "lib/f11.ts"; "lib/f12.ts" ]%string.

Definition windowWide : list (list PRFile) :=
  [ map (fun p => mkFile p 1 0) widePaths;
    [mkFile "lib/f12.ts" 2 1]; [mkFile "lib/f12.ts" 0 4] ].

(** * Properties *)

(** ** Numbers *)

Section NumberFacts.

Local Open Scope R_scope.

Lemma clamp_range (lo hi v : R) : lo <= hi -> lo <= clamp lo hi v <= hi.
Proof.
  intros Hle. unfold clamp. split.
  - apply Rmax_l.
  - apply Rmax_lub; [exact Hle | apply Rmin_l].
Qed.

Lemma clamp_id (lo hi v : R) : lo <= v <= hi -> clamp lo hi v = v.
Proof.
  intros [H1 H2]. unfold clamp.
  rewrite (Rmin_right hi v) by exact H2.
  now apply Rmax_right.
Qed.

Lemma clamp_low (lo hi v : R) : lo <= hi -> v <= lo -> clamp lo hi v = lo.
Proof.
  intros H1 H2. unfold clamp.
  apply Rmax_left. etransitivity; [apply Rmin_r | exact H2].
Qed.

Lemma clamp_high (lo hi v : R) : lo <= hi -> hi <= v -> clamp lo hi v = hi.
Proof.
  intros H1 H2. unfold clamp.
  rewrite (Rmin_left hi v) by exact H2.
  now apply Rmax_right.
Qed.

Lemma round_eq (x : R) (z : Z) :
  IZR z - 0.5 <= x < IZR z + 0.5 -> round x = IZR z.
Proof.
  intros H. unfold round. f_equal. apply Zfloor_eq. lra.
Qed.

Lemma Rgtb_true x y : y < x -> Rgtb x y = true.
Proof. intros H. unfold Rgtb. destruct (Rlt_dec y x); [reflexivity | contradiction]. Qed.

Lemma Rgtb_false x y : x <= y -> Rgtb x y = false.
Proof. intros H. unfold Rgtb. destruct (Rlt_dec y x); [lra | reflexivity]. Qed.

Lemma Rgeb_true x y : y <= x -> Rgeb x y = true.
Proof. intros H. unfold Rgeb. destruct (Rle_dec y x); [reflexivity | contradiction]. Qed.

Lemma Rgeb_false x y : x < y -> Rgeb x y = false.
Proof. intros H. unfold Rgeb. destruct (Rle_dec y x); [lra | reflexivity]. Qed.

Lemma Rleb_true x y : x <= y -> Rleb x y = true.
Proof. intros H. unfold Rleb. destruct (Rle_dec x y); [reflexivity | contradiction]. Qed.

Lemma Rleb_false x y : y < x -> Rleb x y = false.
Proof. intros H. unfold Rleb. destruct (Rle_dec x y); [lra | reflexivity]. Qed.

Lemma Rltb_true x y : x < y -> Rltb x y = true.
Proof. intros H. unfold Rltb. destruct (Rlt_dec x y); [reflexivity | contradiction]. Qed.

Lemma Rltb_false x y : y <= x -> Rltb x y = false.
Proof. intros H. unfold Rltb. destruct (Rlt_dec x y); [lra | reflexivity]. Qed.

End NumberFacts.

(** ** classifyFiles *)

Section ClassifyFacts.

Variable hotspotSet : JSSet.t.

Lemma classifyStep_comm (t : Tally) (f g : PRFile) :
  classifyStep hotspotSet (classifyStep hotspotSet t f) g
  = classifyStep hotspotSet (classifyStep hotspotSet t g) f.
Proof.
  unfold classifyStep, bump; simpl.
  f_equal;
    repeat match goal with |- context [if ?b then _ else _] => destruct b end;
    lia.
Qed.

Lemma fold_classify_perm (l l' : list PRFile) :
  Permutation l l' ->
  forall t, fold_left (classifyStep hotspotSet) l t
            = fold_left (classifyStep hotspotSet) l' t.
Proof.
  induction 1 as [| x l l' _ IH | x y l | l l' l'' _ IH1 _ IH2]; intros t; simpl.
  - reflexivity.
  - apply IH.
  - now rewrite classifyStep_comm.
  - now rewrite IH1.
Qed.

Lemma countIf_cons p f l :
  countIf p (f :: l) = bump (p f) 0 + countIf p l.
Proof.
  unfold countIf, bump; simpl. destruct (p f); simpl List.length; lia.
Qed.

(** What the loop leaves in each local: the initial value plus the
    number of files the corresponding test accepts. *)
Lemma fold_classify_spec (l : list PRFile) :
  forall t,
    fold_left (classifyStep hotspotSet) l t
    = mkTally (tF t + Z.of_nat (List.length l))
              (tL t + fold_right Z.add 0 (map linesOf l))
              (tC t + countIf (fun f => isCorePath (filename f)) l)
              (tT t + countIf (fun f => isTestsPath (filename f)) l)
              (tD t + countIf (fun f => isDepsPath (filename f)) l)
              (tI t + countIf (fun f => isInfraPath (filename f)) l)
              (tH t + countIf (fun f => JSSet.has hotspotSet (filename f)) l)
              (docsCount t + countIf (fun f => isDocsPath (filename f)) l).
Proof.
  induction l as [| f l IH]; intros t.
  - destruct t; unfold countIf; simpl. f_equal; lia.
  - simpl fold_left. rewrite IH. rewrite !countIf_cons.
    unfold classifyStep, bump, linesOf. simpl.
    f_equal;
      repeat match goal with |- context [if ?b then _ else _] => destruct b end;
      lia.
Qed.

Lemma countIf_bounds p l : 0 <= countIf p l <= Z.of_nat (List.length l).
Proof.
  unfold countIf. split; [lia |].
  apply inj_le. apply filter_length_le.
Qed.

Lemma countIf_all p l :
  Forall (fun f => p f = true) l -> countIf p l = Z.of_nat (List.length l).
Proof.
  intros H. unfold countIf. f_equal. f_equal.
  induction H as [| f l Hf _ IH]; simpl; [reflexivity |].
  rewrite Hf. simpl. now rewrite IH.
Qed.

End ClassifyFacts.

(** C8. On the empty file list, whatever the hotspot set, [classifyFiles]
    returns the counts F, L, C, T, D, I, H all zero and [docsOnly = false]
    (and a test coverage of zero). *)
Theorem classifyFiles_empty (hotspotSet : JSSet.t) :
  let c := classifyFiles [] hotspotSet in
  cF c = 0 /\ cL c = 0 /\ cC c = 0 /\ cT c = 0 /\ cD c = 0 /\ cI c = 0
  /\ cH c = 0 /\ docsOnly c = false /\ testCoverage c = 0%R.
Proof.
  cbv zeta. unfold classifyFiles, classifyLoop. simpl.
  repeat split; try reflexivity.
  unfold Rdiv. apply Rmult_0_l.
Qed.

(** C9. [classifyFiles] does not depend on the order of the files: a
    permutation of the file list gives the same [ClassifiedCounts]. *)
Theorem classifyFiles_permutation
  (files files' : list PRFile) (hotspotSet : JSSet.t) :
  Permutation files files' ->
  classifyFiles files hotspotSet = classifyFiles files' hotspotSet.
Proof.
  intros HP. unfold classifyFiles, classifyLoop.
  rewrite (fold_classify_perm hotspotSet files files' HP).
  now rewrite (Permutation_length HP).
Qed.

Lemma classifyFiles_permutation_witness :
  let a := mkFile "src/a.ts" 50 10 in
  let b := mkFile "README.md" 3 0 in
  Permutation [a; b] [b; a]
  /\ classifyFiles [a; b] ["src/a.ts"%string]
     = classifyFiles [b; a] ["src/a.ts"%string].
Proof.
  cbv zeta. split.
  - apply perm_swap.
  - apply classifyFiles_permutation. apply perm_swap.
Defined.

(** ** computeScores *)

Section ScoreFacts.

Local Open Scope R_scope.

Lemma score_range (counts : ClassifiedCounts) :
  0 <= score (computeScores counts) <= 100.
Proof.
  unfold computeScores; simpl.
  match goal with |- context [clamp 0 100 (round ?x)] =>
    pose proof (clamp_range 0 100 (round x) ltac:(lra)) as Hc;
    set (s := clamp 0 100 (round x)) in *
  end.
  destruct (docsOnly counts); [| exact Hc].
  unfold Rmin. destruct (Rle_dec s 25); lra.
Qed.

Lemma reviewMinutes_range (F L C T D I H : Z) :
  5 <= computeReviewMinutes F L C T D I H <= 90.
Proof. unfold computeReviewMinutes. apply clamp_range. lra. Qed.

Lemma docsOnly_score_cap (counts : ClassifiedCounts) :
  docsOnly counts = true -> score (computeScores counts) <= 25.
Proof.
  intros Hd. unfold computeScores; simpl. rewrite Hd. apply Rmin_r.
Qed.

End ScoreFacts.

(** C1. [analyze] is a total function and, on every file list (the empty
    one included) and every hotspot set, the result it returns has its
    final score in [0,100] and its review minutes in [5,90]; the same
    holds for [computeScores] on every tuple of counts. *)
Theorem analyze_range :
  (forall counts : ClassifiedCounts,
      (0 <= score (computeScores counts) <= 100)%R
      /\ (5 <= reviewMinutes (computeScores counts) <= 90)%R)
  /\ (forall (files : list PRFile) (hotspotSet : JSSet.t),
         let r := analyze files hotspotSet in
         r = mkResult (classifyFiles files hotspotSet)
                      (computeScores (classifyFiles files hotspotSet))
                      (driversTop3 r) (suggested r)
         /\ (0 <= score (scores r) <= 100)%R
         /\ (5 <= reviewMinutes (scores r) <= 90)%R).
Proof.
  assert (Hc : forall counts : ClassifiedCounts,
             (0 <= score (computeScores counts) <= 100)%R
             /\ (5 <= reviewMinutes (computeScores counts) <= 90)%R).
  { intros c. split; [apply score_range |].
    unfold computeScores; simpl. apply reviewMinutes_range. }
  split; [exact Hc |].
  intros files hs r. split; [reflexivity |].
  apply (Hc (classifyFiles files hs)).
Qed.

(** ** Bounds on the logarithms and square roots of the scenarios *)

Section LogFacts.

Local Open Scope R_scope.

Lemma ln10_pos : 0 < ln 10.
Proof. rewrite <- ln_1. apply ln_increasing; lra. Qed.

Lemma log10_1 : log10 1 = 0.
Proof. unfold log10. rewrite ln_1. unfold Rdiv. apply Rmult_0_l. Qed.

(** [p/q < log10 x] as soon as [10^p < x^q]. *)
Lemma log10_lower (x : R) (p q : nat) :
  0 < x -> (0 < q)%nat -> 10 ^ p < x ^ q ->
  IZR (Z.of_nat p) / IZR (Z.of_nat q) < log10 x.
Proof.
  intros Hx Hq Hpow.
  assert (Hq' : 0 < INR q) by now apply lt_0_INR.
  assert (Hln : INR p * ln 10 < INR q * ln x).
  { rewrite <- !ln_pow by lra.
    apply ln_increasing; [apply pow_lt; lra | exact Hpow]. }
  rewrite <- !INR_IZR_INZ. unfold log10.
  pose proof ln10_pos as H10.
  apply (Rmult_lt_reg_r (INR q * ln 10)); [now apply Rmult_lt_0_compat |].
  replace (INR p / INR q * (INR q * ln 10)) with (INR p * ln 10)
    by (field; lra).
  replace (ln x / ln 10 * (INR q * ln 10)) with (INR q * ln x)
    by (field; lra).
  exact Hln.
Qed.

Lemma log10_upper (x : R) (p q : nat) :
  0 < x -> (0 < q)%nat -> x ^ q < 10 ^ p ->
  log10 x < IZR (Z.of_nat p) / IZR (Z.of_nat q).
Proof.
  intros Hx Hq Hpow.
  assert (Hq' : 0 < INR q) by now apply lt_0_INR.
  assert (Hln : INR q * ln x < INR p * ln 10).
  { rewrite <- !ln_pow by lra.
    apply ln_increasing; [apply pow_lt; lra | exact Hpow]. }
  rewrite <- !INR_IZR_INZ. unfold log10.
  pose proof ln10_pos as H10.
  apply (Rmult_lt_reg_r (INR q * ln 10)); [now apply Rmult_lt_0_compat |].
  replace (INR p / INR q * (INR q * ln 10)) with (INR p * ln 10)
    by (field; lra).
  replace (ln x / ln 10 * (INR q * ln 10)) with (INR q * ln x)
    by (field; lra).
  exact Hln.
Qed.

Ltac pow_cmp := rewrite !pow_IZR; apply IZR_lt; vm_compute; reflexivity.

Lemma log10_61_bounds : 1.78 < log10 61 < 1.7875.
Proof.
  split.
  - pose proof (log10_lower 61 89 50 ltac:(lra) ltac:(lia)) as H.
    simpl Z.of_nat in H.
    assert (Hp : 10 ^ 89 < 61 ^ 50) by pow_cmp.
    specialize (H Hp). lra.
  - pose proof (log10_upper 61 143 80 ltac:(lra) ltac:(lia)) as H.
    simpl Z.of_nat in H.
    assert (Hp : 61 ^ 80 < 10 ^ 143) by pow_cmp.
    specialize (H Hp). lra.
Qed.

Lemma log10_8_bounds : 0.9 < log10 8 < 1.
Proof.
  split.
  - pose proof (log10_lower 8 9 10 ltac:(lra) ltac:(lia)) as H.
    simpl Z.of_nat in H.
    assert (Hp : 10 ^ 9 < 8 ^ 10) by pow_cmp.
    specialize (H Hp). lra.
  - pose proof (log10_upper 8 1 1 ltac:(lra) ltac:(lia)) as H.
    simpl Z.of_nat in H.
    assert (Hp : 8 ^ 1 < 10 ^ 1) by pow_cmp.
    specialize (H Hp). lra.
Qed.

Lemma sqrt_60_bounds : 7 < sqrt 60 < 8.
Proof.
  split.
  - rewrite <- (sqrt_square 7) by lra. apply sqrt_lt_1; lra.
  - rewrite <- (sqrt_square 8) by lra. apply sqrt_lt_1; lra.
Qed.

Lemma sqrt_7_bounds : 2 < sqrt 7 < 3.
Proof.
  split.
  - rewrite <- (sqrt_square 2) by lra. apply sqrt_lt_1; lra.
  - rewrite <- (sqrt_square 3) by lra. apply sqrt_lt_1; lra.
Qed.

End LogFacts.

(** ** Scenarios *)

Ltac rminmax :=
  repeat match goal with
    | |- context [Rmax ?a ?b] =>
        first [ rewrite (Rmax_left a b) by lra
              | rewrite (Rmax_right a b) by lra ]
    | |- context [Rmin ?a ?b] =>
        first [ rewrite (Rmin_left a b) by lra
              | rewrite (Rmin_right a b) by lra ]
    end.

Ltac rclamp :=
  repeat match goal with
    | |- context [clamp ?lo ?hi ?v] => rewrite (clamp_id lo hi v) by lra
    end.

(** Evaluates [classifyFiles] on a closed file list: the integer loop by
    computation, the test coverage by arithmetic. *)
Ltac classify_closed files hs tally :=
  unfold classifyFiles;
  replace (classifyLoop hs files) with tally by (vm_compute; reflexivity);
  cbn [tF tL tC tT tD tI tH docsCount List.length Z.of_nat
       Pos.of_succ_nat Pos.succ Z.gtb Z.eqb Z.compare Pos.compare
       Pos.compare_cont Pos.eqb andb];
  f_equal; rminmax; lra.

Ltac unfold_scores :=
  unfold computeScores, computeReviewMinutes;
  cbn [cF cL cC cT cD cI cH docsOnly testCoverage
       S_size S_deps S_infra S_hot S_quality base amp score reviewMinutes
       verdictEmoji
       Z.gtb Z.eqb Z.geb Z.compare Pos.compare Pos.compare_cont andb].

Section Scenarios.

Local Open Scope R_scope.

Lemma scenario_A_counts :
  classifyFiles [fileA] [] = mkCounts 1 60 1 0 0 0 0 false 0.
Proof. classify_closed [fileA] (@nil string) (mkTally 1 60 1 0 0 0 0 0). Qed.

End Scenarios.

(** C2. Scenario A: the single file [src/a.ext] with 50 additions and 10
    deletions and the empty hotspot set give F=1, L=60, C=1, T=0, a size
    sub-score within 0.05 of 29.4, a quality sub-score of 60, a base
    within 0.05 of 22.3, an amplification of 1.15, the final score 26,
    5 review minutes and the low (green) verdict. *)
Theorem scenario_A :
  let r := analyze [fileA] [] in
  cF (counts r) = 1 /\ cL (counts r) = 60 /\ cC (counts r) = 1
  /\ cT (counts r) = 0
  /\ (Rabs (S_size (scores r) - 29.4) < 0.05)%R
  /\ S_quality (scores r) = 60%R
  /\ (Rabs (base (scores r) - 22.3) < 0.05)%R
  /\ amp (scores r) = 1.15%R
  /\ score (scores r) = 26%R
  /\ reviewMinutes (scores r) = 5%R
  /\ verdictEmoji (scores r) = Green.
Proof.
  cbv zeta. unfold analyze. cbn [counts scores]. rewrite scenario_A_counts.
  cbn [cF cL cC cT].
  repeat (split; [reflexivity |]).
  unfold_scores.
  pose proof log10_61_bounds as Hlog.
  pose proof sqrt_60_bounds as Hsqrt.
  rminmax.
  replace (1 + 60)%R with 61%R by lra.
  set (x := log10 61) in *.
  rclamp.
  rewrite (round_eq _ 26) by lra.
  rewrite (round_eq _ 1) by lra.
  rewrite (clamp_id 0 100 26) by lra.
  rewrite (clamp_low 5 90 1) by lra.
  rewrite Rleb_true by lra.
  repeat split; try lra; try reflexivity; apply Rabs_def1; lra.
Qed.

(** ** Documentation-only changes *)

Lemma docsOnly_all_docs (files : list PRFile) (hotspotSet : JSSet.t) :
  files <> [] ->
  Forall (fun f => isDocsPath (filename f) = true) files ->
  docsOnly (classifyFiles files hotspotSet) = true.
Proof.
  intros Hne Hall. unfold classifyFiles, classifyLoop.
  rewrite fold_classify_spec. cbn [docsOnly docsCount tally0].
  rewrite (countIf_all (fun f => isDocsPath (filename f)) files Hall).
  apply andb_true_iff. split.
  - destruct files as [| f l]; [contradiction |].
    simpl List.length. apply Z.gtb_lt. lia.
  - apply Z.eqb_eq. lia.
Qed.

Lemma suggestedActions_docsOnly (c : ClassifiedCounts) (s : R) :
  docsOnly c = true -> suggestedActions c s = [noActionNeeded].
Proof. intros Hd. unfold suggestedActions. now rewrite Hd. Qed.

Section ScenarioB.

Local Open Scope R_scope.

Lemma scenario_B_counts :
  classifyFiles [fileB] [] = mkCounts 1 7 0 0 0 0 0 true 0.
Proof. classify_closed [fileB] (@nil string) (mkTally 1 7 0 0 0 0 0 1). Qed.

Lemma scenario_B_score : score (computeScores (classifyFiles [fileB] [])) = 19.
Proof.
  rewrite scenario_B_counts. unfold_scores.
  pose proof log10_8_bounds as Hlog.
  rminmax.
  replace (1 + 7) with 8 by lra.
  set (x := log10 8) in *.
  rclamp.
  rewrite (round_eq _ 19) by lra.
  rewrite (clamp_id 0 100 19) by lra.
  rminmax. reflexivity.
Qed.

(** The same file, when it is itself a hotspot, scores 21: scenario B
    is read with the empty hotspot set, as scenario A states it. *)
Remark scenario_B_as_hotspot :
  score (computeScores (classifyFiles [fileB] ["docs/readme.ext"%string])) = 21.
Proof.
  replace (classifyFiles [fileB] ["docs/readme.ext"%string])
    with (mkCounts 1 7 0 0 0 0 1 true 0)
    by (symmetry;
        classify_closed [fileB] ["docs/readme.ext"%string]
                        (mkTally 1 7 0 0 0 0 1 1)).
  unfold_scores.
  pose proof log10_8_bounds as Hlog.
  rminmax.
  replace (1 + 7) with 8 by lra.
  set (x := log10 8) in *.
  rclamp.
  rewrite (round_eq _ 21) by lra.
  rewrite (clamp_id 0 100 21) by lra.
  rminmax. reflexivity.
Qed.

End ScenarioB.

(** C3. For every non-empty file list whose paths all satisfy the
    documentation predicate, [classifyFiles] sets [docsOnly] and the
    final score of [computeScores] is at most 25.  For the single file
    [docs/readme.ext] with 5 additions and 2 deletions (empty hotspot
    set) the final score is 19 and the suggested actions are exactly the
    no-action-needed entry. *)
Theorem docs_only_capped :
  (forall (files : list PRFile) (hotspotSet : JSSet.t),
      files <> [] ->
      Forall (fun f => isDocsPath (filename f) = true) files ->
      docsOnly (classifyFiles files hotspotSet) = true
      /\ (score (computeScores (classifyFiles files hotspotSet)) <= 25)%R)
  /\ (let r := analyze [fileB] [] in
      docsOnly (counts r) = true
      /\ score (scores r) = 19%R
      /\ suggested r = [noActionNeeded]).
Proof.
  split.
  - intros files hs Hne Hall.
    pose proof (docsOnly_all_docs files hs Hne Hall) as Hd.
    split; [exact Hd | now apply docsOnly_score_cap].
  - cbv zeta. unfold analyze. cbn [counts scores suggested].
    split; [| split].
    + rewrite scenario_B_counts. reflexivity.
    + apply scenario_B_score.
    + apply suggestedActions_docsOnly. rewrite scenario_B_counts. reflexivity.
Qed.

Lemma docs_only_capped_witness :
  let files := [mkFile "README.md" 400 0; mkFile "docs/guide.txt" 900 30] in
  files <> []
  /\ Forall (fun f => isDocsPath (filename f) = true) files
  /\ docsOnly (classifyFiles files []) = true
  /\ (score (computeScores (classifyFiles files [])) <= 25)%R.
Proof.
  cbv zeta.
  assert (Hne : [mkFile "README.md" 400 0; mkFile "docs/guide.txt" 900 30]
                <> []) by discriminate.
  assert (Hall : Forall (fun f => isDocsPath (filename f) = true)
                   [mkFile "README.md" 400 0; mkFile "docs/guide.txt" 900 30]).
  { repeat constructor. }
  split; [exact Hne |]. split; [exact Hall |].
  exact (proj1 docs_only_capped _ [] Hne Hall).
Defined.

(** ** The action decision table *)

Lemma suggestedActions_length (c : ClassifiedCounts) (s : R) :
  (List.length (suggestedActions c s) <= 2)%nat.
Proof.
  unfold suggestedActions. destruct (docsOnly c); [simpl; lia |].
  apply firstn_le_length.
Qed.

(** C7. The action recommender: when [docsOnly] holds the result is the
    single no-action-needed entry, whatever the other counts and the
    score.  Otherwise "Add targeted tests" is generated when C>0 and T=0;
    then "Split this PR" when score >= 70, else "Add a focused review
    checklist" when 40 <= score < 70 and (D>0 or I>0); "Proceed with
    normal review" when nothing else was generated; the result holds the
    generated entries in that order and never more than two. *)
Theorem suggestedActions_table (c : ClassifiedCounts) (s : R) :
  let tests := 0 < cC c /\ cT c = 0 in
  let split := (70 <= s)%R in
  let checklist := (40 <= s < 70)%R /\ (0 < cD c \/ 0 < cI c) in
  let out := suggestedActions c s in
  (docsOnly c = true -> out = ["No action needed (docs-only change)"%string])
  /\ (docsOnly c = false ->
      (tests -> split ->
       out = ["Add targeted tests"; "Split this PR"]%string)
      /\ (tests -> ~ split -> checklist ->
          out = ["Add targeted tests"; "Add a focused review checklist"]%string)
      /\ (tests -> ~ split -> ~ checklist ->
          out = ["Add targeted tests"%string])
      /\ (~ tests -> split -> out = ["Split this PR"%string])
      /\ (~ tests -> ~ split -> checklist ->
          out = ["Add a focused review checklist"%string])
      /\ (~ tests -> ~ split -> ~ checklist ->
          out = ["Proceed with normal review"%string]))
  /\ (List.length out <= 2)%nat.
Proof.
  cbv zeta. split; [| split].
  - intros Hd. unfold suggestedActions. now rewrite Hd.
  - intros Hd. unfold suggestedActions, Rgeb. rewrite Hd.
    destruct (Z.gtb_spec (cC c) 0) as [HC | HC];
      destruct (Z.eqb_spec (cT c) 0) as [HT | HT];
      destruct (Rle_dec 70 s) as [H70 | H70];
      destruct (Rle_dec 40 s) as [H40 | H40];
      destruct (Z.gtb_spec (cD c) 0) as [HD | HD];
      destruct (Z.gtb_spec (cI c) 0) as [HI | HI];
      cbn [andb orb app List.length Nat.eqb firstn];
      repeat split; intros;
      solve [ reflexivity | exfalso; lra | exfalso; lia
            | exfalso; tauto
            | exfalso;
              repeat match goal with
                | H : _ /\ _ |- _ => destruct H
                | H : _ \/ _ |- _ => destruct H
                | H : ~ _ |- _ => apply H; clear H; repeat split; try lra; try lia
                end; solve [lra | lia | tauto] ].
  - apply suggestedActions_length.
Qed.

Lemma suggestedActions_table_witness :
  let c := mkCounts 3 120 2 0 1 0 0 false 0 in
  docsOnly c = false
  /\ (0 < cC c /\ cT c = 0)
  /\ ~ (70 <= 55)%R
  /\ ((40 <= 55 < 70)%R /\ (0 < cD c \/ 0 < cI c))
  /\ suggestedActions c 55
     = ["Add targeted tests"; "Add a focused review checklist"]%string.
Proof.
  cbv zeta.
  assert (Hd : docsOnly (mkCounts 3 120 2 0 1 0 0 false 0) = false)
    by reflexivity.
  assert (Ht : 0 < cC (mkCounts 3 120 2 0 1 0 0 false 0)
               /\ cT (mkCounts 3 120 2 0 1 0 0 false 0) = 0)
    by (simpl; lia).
  assert (Hs : ~ (70 <= 55)%R) by lra.
  assert (Hc : (40 <= 55 < 70)%R
               /\ (0 < cD (mkCounts 3 120 2 0 1 0 0 false 0)
                   \/ 0 < cI (mkCounts 3 120 2 0 1 0 0 false 0)))
    by (split; [lra | left; simpl; lia]).
  repeat (split; [assumption |]).
  exact (proj1 (proj2 (proj1 (proj2
           (suggestedActions_table (mkCounts 3 120 2 0 1 0 0 false 0) 55))
           Hd)) Ht Hs Hc).
Defined.

(** ** Paths that are documentation and core at once *)

Lemma amp_untested_core (c : ClassifiedCounts) :
  0 < cC c -> cT c = 0 -> (1.15 <= amp (computeScores c) <= 1.4)%R.
Proof.
  intros HC HT. unfold computeScores. cbn [amp].
  replace (cC c >? 0) with true by (symmetry; apply Z.gtb_lt; lia).
  replace (cT c =? 0) with true by (symmetry; apply Z.eqb_eq; exact HT).
  cbn [andb].
  split; [| apply Rmin_l].
  apply Rmin_glb; [lra |].
  destruct (cD c >? 0); cbn [andb];
    destruct (cI c >? 0); destruct (cH c >=? 2); lra.
Qed.

Section ScenarioDocCore.

Local Open Scope R_scope.

Lemma docCore_counts :
  classifyFiles [fileDocCore] [] = mkCounts 1 60 1 0 0 0 0 true 0.
Proof.
  classify_closed [fileDocCore] (@nil string) (mkTally 1 60 1 0 0 0 0 1).
Qed.

Lemma docCore_scores :
  let sc := computeScores (classifyFiles [fileDocCore] []) in
  amp sc = 1.15
  /\ clamp 0 100 (round (base sc * amp sc)) = 26
  /\ score sc = 25.
Proof.
  cbv zeta. rewrite docCore_counts. unfold_scores.
  pose proof log10_61_bounds as Hlog.
  rminmax.
  replace (1 + 60) with 61 by lra.
  set (x := log10 61) in *.
  rclamp.
  rewrite (round_eq _ 26) by lra.
  rewrite (clamp_id 0 100 26) by lra.
  rminmax.
  repeat split; lra.
Qed.

End ScenarioDocCore.

(** C10. The documentation and the core predicates overlap: the single
    file [src/readme.md] is core by its prefix and documentation by its
    suffix, and gives [docsOnly = true] with C = 1 and T = 0.  For every
    non-empty file list whose paths are all documentation and core at
    once, the suggested actions are only the no-action-needed entry
    ("Add targeted tests" is not suggested) and the final score is at
    most 25, although with T = 0 the amplification holds the
    untested-core bonus; on [src/readme.md] with 50 additions and 10
    deletions the amplified score would be 26 and the final score is 25. *)
Theorem docs_core_overlap :
  (isDocsPath (filename fileDocCore) = true
   /\ isCorePath (filename fileDocCore) = true
   /\ let r := analyze [fileDocCore] [] in
      docsOnly (counts r) = true /\ cC (counts r) = 1 /\ cT (counts r) = 0
      /\ suggested r = [noActionNeeded]
      /\ amp (scores r) = 1.15%R
      /\ clamp 0 100 (round (base (scores r) * amp (scores r))) = 26%R
      /\ score (scores r) = 25%R)
  /\ (forall (files : list PRFile) (hotspotSet : JSSet.t),
         files <> [] ->
         Forall (fun f => isDocsPath (filename f) = true
                          /\ isCorePath (filename f) = true) files ->
         let r := analyze files hotspotSet in
         docsOnly (counts r) = true
         /\ 0 < cC (counts r)
         /\ suggested r = [noActionNeeded]
         /\ ~ In "Add targeted tests"%string (suggested r)
         /\ (score (scores r) <= 25)%R
         /\ (cT (counts r) = 0 -> (1.15 <= amp (scores r) <= 1.4)%R)).
Proof.
  split.
  - split; [reflexivity |]. split; [reflexivity |].
    cbv zeta. unfold analyze. cbn [counts scores suggested].
    destruct docCore_scores as (Ha & Hr & Hs).
    split; [rewrite docCore_counts; reflexivity |].
    split; [rewrite docCore_counts; reflexivity |].
    split; [rewrite docCore_counts; reflexivity |].
    split; [apply suggestedActions_docsOnly; rewrite docCore_counts;
            reflexivity |].
    split; [exact Ha |]. split; [exact Hr | exact Hs].
  - intros files hs Hne Hall. cbv zeta.
    unfold analyze. cbn [counts scores suggested].
    assert (Hdocs : Forall (fun f => isDocsPath (filename f) = true) files).
    { eapply Forall_impl; [| exact Hall]. intros f [H _]. exact H. }
    assert (Hcore : Forall (fun f => isCorePath (filename f) = true) files).
    { eapply Forall_impl; [| exact Hall]. intros f [_ H]. exact H. }
    pose proof (docsOnly_all_docs files hs Hne Hdocs) as Hd.
    assert (HC : 0 < cC (classifyFiles files hs)).
    { unfold classifyFiles, classifyLoop. rewrite fold_classify_spec.
      cbn [cC tC tally0].
      rewrite (countIf_all (fun f => isCorePath (filename f)) files Hcore).
      destruct files as [| f l]; [contradiction |]. simpl List.length. lia. }
    pose proof (suggestedActions_docsOnly (classifyFiles files hs)
                  (score (computeScores (classifyFiles files hs))) Hd) as Hact.
    split; [exact Hd |]. split; [exact HC |]. split; [exact Hact |].
    split.
    { rewrite Hact. intros [Hin | []]. discriminate Hin. }
    split; [now apply docsOnly_score_cap |].
    intros HT. now apply amp_untested_core.
Qed.

Lemma docs_core_overlap_witness :
  let files := [mkFile "lib/NOTES.MD" 10 0; mkFile "src/readme.md" 200 40] in
  files <> []
  /\ Forall (fun f => isDocsPath (filename f) = true
                      /\ isCorePath (filename f) = true) files
  /\ docsOnly (counts (analyze files [])) = true
  /\ suggested (analyze files []) = [noActionNeeded]
  /\ (score (scores (analyze files [])) <= 25)%R.
Proof.
  cbv zeta.
  assert (Hne : [mkFile "lib/NOTES.MD" 10 0; mkFile "src/readme.md" 200 40]
                <> []) by discriminate.
  assert (Hall : Forall (fun f => isDocsPath (filename f) = true
                                  /\ isCorePath (filename f) = true)
                   [mkFile "lib/NOTES.MD" 10 0; mkFile "src/readme.md" 200 40]).
  { repeat constructor. }
  split; [exact Hne |]. split; [exact Hall |].
  destruct (proj2 docs_core_overlap _ [] Hne Hall) as (H1 & _ & H3 & _ & H5 & _).
  split; [exact H1 |]. split; [exact H3 | exact H5].
Defined.

(** ** The stable sort *)

Section BeforeFacts.

Context {A : Type}.

Lemma Before_In (x y : A) (l : list A) : Before x y l -> In x l /\ In y l.
Proof.
  induction 1 as [l Hy | z l _ [IHx IHy]]; simpl; auto.
Qed.

Lemma Before_firstn (x y : A) (n : nat) (l : list A) :
  Before x y (firstn n l) -> Before x y l.
Proof.
  revert l. induction n as [| n IH]; intros l H.
  - simpl in H. inversion H.
  - destruct l as [| z l]; simpl in H; [inversion H |].
    inversion H as [l' Hy | z' l' Hb]; subst.
    + apply Before_here. rewrite <- (firstn_skipn n l).
      apply in_or_app. now left.
    + apply Before_later. now apply IH.
Qed.

Lemma Before_map {B : Type} (f : A -> B) (x y : A) (l : list A) :
  Before x y l -> Before (f x) (f y) (map f l).
Proof.
  induction 1 as [l Hy | z l _ IH]; simpl.
  - apply Before_here. now apply in_map.
  - now apply Before_later.
Qed.

Lemma Before_sorted (R : A -> A -> Prop) (x y : A) (l : list A) :
  StronglySorted R l -> Before x y l -> R x y.
Proof.
  intros HS HB. induction HB as [l Hy | z l _ IH].
  - apply StronglySorted_inv in HS. destruct HS as [_ HF].
    rewrite Forall_forall in HF. now apply HF.
  - apply StronglySorted_inv in HS. now apply IH.
Qed.

End BeforeFacts.

Section SortFacts.

Context {A : Type} (after : A -> A -> bool).

Lemma insertSorted_perm (x : A) (l : list A) :
  Permutation (x :: l) (insertSorted after x l).
Proof.
  induction l as [| y ys IH]; simpl; [reflexivity |].
  destruct (after x y); [| reflexivity].
  rewrite perm_swap. now apply perm_skip.
Qed.

Lemma sortBy_perm (l : list A) : Permutation l (sortBy after l).
Proof.
  induction l as [| x xs IH]; simpl; [constructor |].
  rewrite <- insertSorted_perm. now apply perm_skip.
Qed.

Lemma sortBy_In (x : A) (l : list A) : In x (sortBy after l) <-> In x l.
Proof.
  split; apply Permutation_in;
    [symmetry |]; apply sortBy_perm.
Qed.

Lemma sortBy_length (l : list A) :
  List.length (sortBy after l) = List.length l.
Proof. symmetry. apply Permutation_length, sortBy_perm. Qed.

(** Where an inserted element can end up relative to the others. *)
Lemma insertSorted_Before (a x y : A) (s : list A) :
  Before x y (insertSorted after a s) ->
  Before x y s
  \/ (x = a /\ In y s)
  \/ (y = a /\ In x s /\ after a x = true).
Proof.
  induction s as [| z s IH]; simpl; intros HB.
  - inversion HB as [l Hy | z' l Hb]; subst; [destruct Hy | inversion Hb].
  - destruct (after a z) eqn:Haz.
    + inversion HB as [l Hy | z' l Hb]; subst.
      * apply (Permutation_in _ (Permutation_sym (insertSorted_perm a s)))
          in Hy.
        destruct Hy as [-> | Hy].
        -- right; right. repeat split; simpl; auto.
        -- left. now apply Before_here.
      * destruct (IH Hb) as [H | [[-> H] | (-> & H & Ha)]].
        -- left. now apply Before_later.
        -- right; left. simpl; auto.
        -- right; right. simpl; auto.
    + inversion HB as [l Hy | z' l Hb]; subst.
      * right; left. auto.
      * now left.
Qed.

(** Stability: the sort only reverses two elements when the comparator
    asks for it. *)
Lemma sortBy_stable (x y : A) (l : list A) :
  Before x y (sortBy after l) -> Before x y l \/ after y x = true.
Proof.
  induction l as [| a l IH]; simpl; intros HB; [inversion HB |].
  destruct (insertSorted_Before a x y _ HB) as [H | [[-> H] | (-> & H & Ha)]].
  - destruct (IH H) as [H' | H'].
    + left. now apply Before_later.
    + now right.
  - left. apply Before_here. exact (proj1 (sortBy_In y l) H).
  - now right.
Qed.

(** Sortedness, for any transitive order the comparator decides. *)
Variable R : A -> A -> Prop.
Hypothesis R_trans : forall x y z, R x y -> R y z -> R x z.
Hypothesis after_false : forall x y, after x y = false -> R x y.
Hypothesis after_true : forall x y, after x y = true -> R y x.

Lemma insertSorted_sorted (x : A) (l : list A) :
  StronglySorted R l -> StronglySorted R (insertSorted after x l).
Proof.
  induction l as [| y ys IH]; simpl; intros HS.
  - repeat constructor.
  - apply StronglySorted_inv in HS. destruct HS as [HS HF].
    destruct (after x y) eqn:Hxy.
    + constructor; [now apply IH |].
      apply (Permutation_Forall (insertSorted_perm x ys)).
      constructor; [now apply after_true | exact HF].
    + constructor; [now constructor |].
      constructor; [now apply after_false |].
      eapply Forall_impl; [| exact HF].
      intros z Hz. apply (R_trans x y z); [now apply after_false | exact Hz].
Qed.

Lemma sortBy_sorted (l : list A) : StronglySorted R (sortBy after l).
Proof.
  induction l as [| x xs IH]; simpl; [constructor |].
  now apply insertSorted_sorted.
Qed.

End SortFacts.

(** ** median *)

Section MedianFacts.

Local Open Scope R_scope.

Lemma byValueAsc_false x y : byValueAsc x y = false -> x <= y.
Proof.
  unfold byValueAsc, Rgtb. destruct (Rlt_dec 0 (x - y)); [discriminate | lra].
Qed.

Lemma byValueAsc_true x y : byValueAsc x y = true -> y <= x.
Proof.
  unfold byValueAsc, Rgtb. destruct (Rlt_dec 0 (x - y)); [lra | discriminate].
Qed.

Lemma sortBy_byValueAsc_sorted (nums : list R) :
  StronglySorted Rle (sortBy byValueAsc nums).
Proof.
  apply sortBy_sorted.
  - intros x y z. apply Rle_trans.
  - apply byValueAsc_false.
  - apply byValueAsc_true.
Qed.

Lemma median_even (nums : list R) :
  nums <> [] -> (List.length nums mod 2 = 0)%nat ->
  median nums
  = Some ((nth (List.length nums / 2 - 1) (sortBy byValueAsc nums) 0
           + nth (List.length nums / 2) (sortBy byValueAsc nums) 0) / 2).
Proof.
  intros Hne Hmod. unfold median.
  destruct nums as [| x l]; [contradiction |].
  change (List.length (x :: l) =? 0)%nat with false. cbv iota.
  rewrite sortBy_length, Hmod. reflexivity.
Qed.

Lemma median_odd (nums : list R) :
  (List.length nums mod 2 = 1)%nat ->
  median nums = Some (nth (List.length nums / 2) (sortBy byValueAsc nums) 0).
Proof.
  intros Hmod. unfold median.
  destruct nums as [| x l]; [discriminate Hmod |].
  change (List.length (x :: l) =? 0)%nat with false. cbv iota.
  rewrite sortBy_length, Hmod. reflexivity.
Qed.

End MedianFacts.

(** C6. [median] of the empty list is absent; of a one-element list
    [[x]] it is [x]; of an even-length list it is the average of the two
    middle values of the list sorted in ascending order, so that
    [median [1; 3] = 2]. *)
Theorem median_spec :
  median [] = None
  /\ (forall x : R, median [x] = Some x)
  /\ median [1%R; 3%R] = Some 2%R
  /\ (forall nums : list R,
         nums <> [] -> (List.length nums mod 2 = 0)%nat ->
         let a := sortBy byValueAsc nums in
         let mid := (List.length nums / 2)%nat in
         Permutation nums a
         /\ StronglySorted Rle a
         /\ median nums = Some ((nth (mid - 1) a 0 + nth mid a 0) / 2)%R).
Proof.
  split; [reflexivity |]. split; [intros x; reflexivity |]. split.
  - rewrite median_even by (discriminate || reflexivity).
    cbn [sortBy insertSorted]. unfold byValueAsc.
    rewrite Rgtb_false by lra.
    change (List.length [1%R; 3%R] / 2 - 1)%nat with 0%nat.
    change (List.length [1%R; 3%R] / 2)%nat with 1%nat.
    cbn [nth]. f_equal. lra.
  - intros nums Hne Hmod. cbv zeta.
    split; [apply sortBy_perm |].
    split; [apply sortBy_byValueAsc_sorted |].
    now apply median_even.
Qed.

Lemma median_spec_witness :
  let nums := [4%R; 1%R; 3%R; 2%R] in
  nums <> [] /\ (List.length nums mod 2 = 0)%nat
  /\ median nums
     = Some ((nth 1 (sortBy byValueAsc nums) 0
              + nth 2 (sortBy byValueAsc nums) 0) / 2)%R.
Proof.
  cbv zeta.
  assert (Hne : [4%R; 1%R; 3%R; 2%R] <> []) by discriminate.
  assert (Hmod : (List.length [4%R; 1%R; 3%R; 2%R] mod 2 = 0)%nat)
    by reflexivity.
  split; [exact Hne |]. split; [exact Hmod |].
  exact (proj2 (proj2 (proj2 (proj2 (proj2 median_spec)) _ Hne Hmod))).
Defined.

(** ** pickDrivers *)

Lemma DriverKey_eqb_eq (a b : DriverKey) : DriverKey_eqb a b = true <-> a = b.
Proof. destruct a, b; simpl; split; intros H; congruence. Qed.

Lemma DriverKey_eqb_neq (a b : DriverKey) : a <> b -> DriverKey_eqb a b = false.
Proof.
  intros Hne. destruct (DriverKey_eqb a b) eqn:E; [| reflexivity].
  apply DriverKey_eqb_eq in E. contradiction.
Qed.

Section DriverMapFacts.

Import DriverMap.

Lemma set_fresh (m : t) (k : DriverKey) (d : Driver) :
  get m k = None -> set m k d = m ++ [(k, d)].
Proof.
  induction m as [| [k' d'] m IH]; simpl; intros Hg; [reflexivity |].
  destruct (DriverKey_eqb k k'); [discriminate |].
  now rewrite IH.
Qed.

Lemma get_app_other (m : t) (k k' : DriverKey) (d : Driver) :
  k' <> k -> get (m ++ [(k, d)]) k' = get m k'.
Proof.
  intros Hne. induction m as [| [k0 d0] m IH]; simpl.
  - now rewrite DriverKey_eqb_neq.
  - destruct (DriverKey_eqb k' k0); [reflexivity | exact IH].
Qed.

(** With pairwise distinct keys the map keeps every candidate, in the
    order of generation. *)
Lemma fold_bestByKey_fresh (l : list Driver) :
  forall m : t,
    NoDup (map key l) ->
    (forall d, In d l -> get m (key d) = None) ->
    values (fold_left bestByKeyStep l m) = values m ++ l.
Proof.
  induction l as [| a l IH]; intros m Hnd Hfresh; simpl.
  - now rewrite app_nil_r.
  - simpl in Hnd. apply NoDup_cons_iff in Hnd. destruct Hnd as [Ha Hnd].
    unfold bestByKeyStep at 2.
    rewrite (Hfresh a) by (now left).
    rewrite set_fresh by (apply Hfresh; now left).
    rewrite IH.
    + unfold values. rewrite map_app. simpl. now rewrite <- app_assoc.
    + exact Hnd.
    + intros d Hd. rewrite get_app_other.
      * apply Hfresh. now right.
      * intros Heq. apply Ha. rewrite <- Heq. now apply in_map.
Qed.

Lemma bestByKey_distinct (l : list Driver) :
  NoDup (map key l) -> values (bestByKey l) = l.
Proof.
  intros Hnd. unfold bestByKey.
  now rewrite fold_bestByKey_fresh.
Qed.

End DriverMapFacts.

Lemma driverCandidates_keys (c : ClassifiedCounts) (s : Scores) :
  NoDup (map key (driverCandidates c s)).
Proof.
  unfold driverCandidates.
  destruct ((cC c >? 0) && (cT c =? 0))%bool;
    destruct (Rltb (testCoverage c) 1);
    destruct (cD c >? 0); destruct (cI c >? 0); destruct (cH c >? 0);
    cbn [app map key];
    repeat (constructor; [cbn [In]; intuition discriminate |]);
    constructor.
Qed.

Section RankFacts.

Local Open Scope R_scope.

Lemma byContributionDesc_false a b : byContributionDesc a b = false -> descWeak a b.
Proof.
  unfold byContributionDesc, descWeak, Rgtb.
  destruct (Rlt_dec 0 (contribution b - contribution a)); [discriminate | lra].
Qed.

Lemma byContributionDesc_true a b : byContributionDesc a b = true -> descWeak b a.
Proof.
  unfold byContributionDesc, descWeak, Rgtb.
  destruct (Rlt_dec 0 (contribution b - contribution a)); [lra | discriminate].
Qed.

Lemma byContributionDesc_tie a b :
  contribution a = contribution b -> byContributionDesc b a = false.
Proof.
  intros H. unfold byContributionDesc. apply Rgtb_false. lra.
Qed.

Lemma StronglySorted_firstn {A : Type} (R : A -> A -> Prop) (n : nat) (l : list A) :
  StronglySorted R l -> StronglySorted R (firstn n l).
Proof.
  revert l. induction n as [| n IH]; intros l HS; [constructor |].
  destruct l as [| x l]; [constructor |].
  apply StronglySorted_inv in HS. destruct HS as [HS HF].
  simpl. constructor; [now apply IH |].
  rewrite Forall_forall in *. intros y Hy. apply HF.
  rewrite <- (firstn_skipn n l). apply in_or_app. now left.
Qed.

Lemma NoDup_firstn {A : Type} (n : nat) (l : list A) :
  NoDup l -> NoDup (firstn n l).
Proof.
  intros H. rewrite <- (firstn_skipn n l) in H.
  now apply NoDup_app_remove_r in H.
Qed.

End RankFacts.

Lemma pickDrivers_sorted_candidates (c : ClassifiedCounts) (s : Scores) :
  pickDrivers c s = firstn 3 (sortBy byContributionDesc (driverCandidates c s)).
Proof.
  unfold pickDrivers, rankDrivers.
  now rewrite bestByKey_distinct by apply driverCandidates_keys.
Qed.

(** C4, as the code has it.  The list [pickDrivers] returns has at most
    3 drivers, no two with the same key, and contributions that never
    increase along the list; two drivers with equal contributions stand
    in the order in which their causes were generated. *)
Theorem pickDrivers_ranked (c : ClassifiedCounts) (s : Scores) :
  let out := pickDrivers c s in
  (List.length out <= 3)%nat
  /\ NoDup (map key out)
  /\ StronglySorted descWeak out
  /\ (forall x y : Driver,
         Before x y out -> contribution x = contribution y ->
         Before x y (driverCandidates c s)).
Proof.
  cbv zeta. rewrite pickDrivers_sorted_candidates.
  split; [apply firstn_le_length |]. split; [| split].
  - rewrite <- firstn_map. apply NoDup_firstn.
    apply (Permutation_NoDup
             (Permutation_map key
                (sortBy_perm byContributionDesc (driverCandidates c s)))).
    apply driverCandidates_keys.
  - apply StronglySorted_firstn. apply sortBy_sorted.
    + intros x y z Hxy Hyz. unfold descWeak in *. lra.
    + apply byContributionDesc_false.
    + apply byContributionDesc_true.
  - intros x y HB Htie. apply Before_firstn in HB.
    destruct (sortBy_stable _ _ _ _ HB) as [H | H]; [exact H |].
    rewrite (byContributionDesc_tie x y Htie) in H. discriminate H.
Qed.

Section DriverTie.

Local Open Scope R_scope.

Lemma log10_10 : log10 10 = 1.
Proof. unfold log10. pose proof ln10_pos. field. lra. Qed.

Lemma manifest_counts :
  classifyFiles [fileManifest] [] = mkCounts 1 9 0 0 1 0 0 false 0.
Proof.
  classify_closed [fileManifest] (@nil string) (mkTally 1 9 0 0 1 0 0 0).
Qed.

Lemma manifest_subscores :
  let sc := computeScores (mkCounts 1 9 0 0 1 0 0 false 0) in
  S_size sc = 20 /\ S_quality sc = 60 /\ S_deps sc = 35.
Proof.
  cbv zeta. unfold_scores. rminmax.
  replace (1 + 9) with 10 by lra. rewrite log10_10.
  rclamp. repeat split; lra.
Qed.

(** On the single manifest [package.json] with 9 changed lines the
    ranking is: low test coverage (12), large change size (7),
    dependency churn (7). *)
Lemma manifest_drivers :
  driversTop3 (analyze [fileManifest] [])
  = [ mkDriver LowTestCoverage "Low test coverage" 12;
      mkDriver LargeChangeSize "Large change size" 7;
      mkDriver DependencyChurn "Dependency churn above baseline" 7 ].
Proof.
  unfold analyze. cbn [driversTop3]. rewrite manifest_counts.
  rewrite pickDrivers_sorted_candidates.
  destruct manifest_subscores as (Hsize & Hq & Hd).
  unfold driverCandidates.
  cbn [cC cT cD cI cH testCoverage Z.gtb Z.eqb Z.geb Z.compare andb].
  rewrite Hsize, Hq, Hd.
  rewrite !Rltb_true by lra.
  cbn [app sortBy insertSorted].
  unfold byContributionDesc; cbn [contribution].
  repeat (match goal with
          | |- context [Rgtb ?a ?b] =>
              first [ rewrite (Rgtb_true a b) by lra
                    | rewrite (Rgtb_false a b) by lra ]
          end;
          cbn [insertSorted];
          unfold byContributionDesc; cbn [contribution]).
  cbn [firstn].
  repeat (f_equal; try lra).
Qed.

End DriverTie.

(** C4, as stated, fails: on the single manifest [package.json] with 5
    additions and 4 deletions the second and the third driver both
    contribute 7, so the contributions are not strictly descending. *)
Lemma pickDrivers_not_strict :
  let out := driversTop3 (analyze [fileManifest] []) in
  ~ ((List.length out <= 3)%nat
     /\ NoDup (map key out)
     /\ StronglySorted descStrict out).
Proof.
  cbv zeta. rewrite manifest_drivers. intros (_ & _ & HS).
  apply StronglySorted_inv in HS. destruct HS as [HS _].
  apply StronglySorted_inv in HS. destruct HS as [_ HF].
  apply Forall_inv in HF. unfold descStrict in HF. cbn [contribution] in HF.
  lra.
Qed.

Lemma pickDrivers_ranked_witness :
  let c := classifyFiles [fileManifest] [] in
  let s := computeScores c in
  let x := mkDriver LargeChangeSize "Large change size" 7 in
  let y := mkDriver DependencyChurn "Dependency churn above baseline" 7 in
  Before x y (pickDrivers c s)
  /\ contribution x = contribution y
  /\ Before x y (driverCandidates c s).
Proof.
  cbv zeta.
  assert (HB : Before (mkDriver LargeChangeSize "Large change size" 7)
                 (mkDriver DependencyChurn "Dependency churn above baseline" 7)
                 (pickDrivers (classifyFiles [fileManifest] [])
                    (computeScores (classifyFiles [fileManifest] [])))).
  { change (pickDrivers (classifyFiles [fileManifest] [])
              (computeScores (classifyFiles [fileManifest] [])))
      with (driversTop3 (analyze [fileManifest] [])).
    rewrite manifest_drivers.
    apply Before_later. apply Before_here. now left. }
  assert (Htie : contribution (mkDriver LargeChangeSize "Large change size" 7)
                 = contribution
                     (mkDriver DependencyChurn
                        "Dependency churn above baseline" 7))
    by reflexivity.
  split; [exact HB |]. split; [exact Htie |].
  exact (proj2 (proj2 (proj2
           (pickDrivers_ranked (classifyFiles [fileManifest] [])
              (computeScores (classifyFiles [fileManifest] []))))) _ _ HB Htie).
Defined.

(** ** The baseline aggregator *)

Section JSSetFacts.

Import JSSet.

Lemma has_In (s : t) (x : string) : has s x = true <-> In x s.
Proof.
  unfold has. rewrite existsb_exists. split.
  - intros (y & Hy & He). apply String.eqb_eq in He. now subst.
  - intros H. exists x. split; [exact H | apply String.eqb_refl].
Qed.

Lemma add_In (s : t) (x y : string) : In y (add s x) <-> In y s \/ y = x.
Proof.
  unfold add. destruct (has s x) eqn:E.
  - apply has_In in E. split; [now left |]. intros [H | ->]; assumption.
  - rewrite in_app_iff. simpl. intuition.
Qed.

Lemma add_NoDup (s : t) (x : string) : NoDup s -> NoDup (add s x).
Proof.
  intros Hs. unfold add. destruct (has s x) eqn:E; [exact Hs |].
  apply NoDup_app; [exact Hs | repeat constructor; intros [] |].
  intros y Hy [<- | []].
  apply has_In in Hy. congruence.
Qed.

Lemma fold_add_In (l : list string) :
  forall (s : t) (y : string), In y (fold_left add l s) <-> In y s \/ In y l.
Proof.
  induction l as [| x l IH]; intros s y; simpl.
  - tauto.
  - rewrite IH, add_In. intuition.
Qed.

Lemma fold_add_NoDup (l : list string) :
  forall s : t, NoDup s -> NoDup (fold_left add l s).
Proof.
  induction l as [| x l IH]; intros s Hs; simpl; [exact Hs |].
  apply IH. now apply add_NoDup.
Qed.

Lemma of_list_In (l : list string) (y : string) : In y (of_list l) <-> In y l.
Proof. unfold of_list. rewrite fold_add_In. simpl. tauto. Qed.

Lemma of_list_NoDup (l : list string) : NoDup (of_list l).
Proof. apply fold_add_NoDup. constructor. Qed.

End JSSetFacts.

Section FreqMapFacts.

Import FreqMap.

Lemma get_set_same (m : t) (k : string) (c : Z) : get (set m k c) k = Some c.
Proof.
  induction m as [| [k' c'] m IH]; simpl.
  - now rewrite String.eqb_refl.
  - destruct (String.eqb k k') eqn:E; simpl; rewrite E; [reflexivity | exact IH].
Qed.

Lemma get_set_other (m : t) (k k' : string) (c : Z) :
  k' <> k -> get (set m k c) k' = get m k'.
Proof.
  intros Hne. apply String.eqb_neq in Hne.
  induction m as [| [k0 c0] m IH]; simpl.
  - now rewrite Hne.
  - destruct (String.eqb k k0) eqn:E; simpl.
    + apply String.eqb_eq in E. subst k0. now rewrite Hne.
    + destruct (String.eqb k' k0); [reflexivity | exact IH].
Qed.

Lemma keys_set_In (m : t) (k k' : string) (c : Z) :
  In k' (map fst (set m k c)) <-> In k' (map fst m) \/ k' = k.
Proof.
  induction m as [| [k0 c0] m IH]; simpl.
  - intuition.
  - destruct (String.eqb k k0) eqn:E; simpl.
    + apply String.eqb_eq in E. subst k0. intuition.
    + rewrite IH. intuition.
Qed.

Lemma set_NoDup (m : t) (k : string) (c : Z) :
  NoDup (map fst m) -> NoDup (map fst (set m k c)).
Proof.
  induction m as [| [k0 c0] m IH]; simpl; intros Hnd.
  - repeat constructor. intros [].
  - apply NoDup_cons_iff in Hnd. destruct Hnd as [Hk0 Hnd].
    destruct (String.eqb k k0) eqn:E; simpl.
    + now constructor.
    + constructor; [| now apply IH].
      rewrite keys_set_In. intros [H | H]; [contradiction |].
      subst k0. now rewrite String.eqb_refl in E.
Qed.

Lemma In_get (m : t) (p : string) (c : Z) :
  NoDup (map fst m) -> (In (p, c) m <-> get m p = Some c).
Proof.
  induction m as [| [k0 c0] m IH]; simpl; intros Hnd.
  - split; [intros [] | discriminate].
  - apply NoDup_cons_iff in Hnd. destruct Hnd as [Hk0 Hnd].
    destruct (String.eqb p k0) eqn:E.
    + apply String.eqb_eq in E. subst k0. split.
      * intros [H | H]; [congruence |].
        exfalso. apply Hk0. now apply (in_map fst) in H.
      * intros H. left. congruence.
    + apply String.eqb_neq in E. rewrite <- (IH Hnd). split.
      * intros [H | H]; [congruence | exact H].
      * now right.
Qed.

Lemma occurrences_cons (p : string) (f : PRFile) (fs : list PRFile) :
  occurrences p (f :: fs)
  = (if String.eqb p (filename f) then 1 else 0) + occurrences p fs.
Proof.
  unfold occurrences. simpl.
  destruct (String.eqb p (filename f)); simpl List.length; lia.
Qed.

Lemma occurrences_nonneg (p : string) (fs : list PRFile) : 0 <= occurrences p fs.
Proof. unfold occurrences. lia. Qed.

Lemma fold_touch_get (fs : list PRFile) :
  forall (m : t) (p : string),
    get (fold_left touch fs m) p
    = if occurrences p fs =? 0 then get m p
      else Some (getOr0 m p + occurrences p fs).
Proof.
  induction fs as [| f fs IH]; intros m p.
  - reflexivity.
  - simpl fold_left. rewrite IH, occurrences_cons.
    pose proof (occurrences_nonneg p fs) as Hocc.
    unfold touch, getOr0.
    destruct (String.eqb p (filename f)) eqn:E.
    + apply String.eqb_eq in E. subst p. rewrite get_set_same.
      destruct (Z.eqb_spec (occurrences (filename f) fs) 0) as [H0 | H0];
        destruct (Z.eqb_spec (1 + occurrences (filename f) fs) 0);
        try lia; f_equal; lia.
    + apply String.eqb_neq in E. rewrite get_set_other by exact E.
      reflexivity.
Qed.

Lemma fold_touch_NoDup (fs : list PRFile) :
  forall m : t, NoDup (map fst m) -> NoDup (map fst (fold_left touch fs m)).
Proof.
  induction fs as [| f fs IH]; intros m Hnd; simpl; [exact Hnd |].
  apply IH. unfold touch. now apply set_NoDup.
Qed.

Lemma fold_baselineStep_fst (w : list (list PRFile)) :
  forall st, fst (fold_left baselineStep w st)
             = fold_left touch (List.concat w) (fst st).
Proof.
  induction w as [| files w IH]; intros st; simpl; [reflexivity |].
  rewrite IH. cbn [baselineStep fst]. now rewrite fold_left_app.
Qed.

Lemma freqTable_touch (w : list (list PRFile)) :
  freqTable w = fold_left touch (List.concat w) [].
Proof. unfold freqTable. now rewrite fold_baselineStep_fst. Qed.

Lemma freqTable_NoDup (w : list (list PRFile)) : NoDup (map fst (freqTable w)).
Proof. rewrite freqTable_touch. apply fold_touch_NoDup. constructor. Qed.

(** The table holds exactly the touched paths, each with its frequency. *)
Lemma freqTable_In (w : list (list PRFile)) (p : string) (c : Z) :
  In (p, c) (freqTable w) <-> c = freqOf w p /\ 0 < c.
Proof.
  rewrite (In_get _ _ _ (freqTable_NoDup w)).
  rewrite freqTable_touch, fold_touch_get. unfold freqOf.
  pose proof (occurrences_nonneg p (List.concat w)) as Hocc.
  destruct (Z.eqb_spec (occurrences p (List.concat w)) 0) as [H0 | H0];
    simpl.
  - split; [discriminate | lia].
  - unfold getOr0. simpl. split.
    + intros H. injection H as <-. lia.
    + intros [-> _]. reflexivity.
Qed.

End FreqMapFacts.

Section HotspotFacts.

Lemma hotspotFiles_computeBaseline (n : nat) (merged : list (list PRFile)) :
  hotspotFiles (computeBaseline n merged)
  = hotspotsOf (freqTable (firstn n merged)).
Proof.
  unfold computeBaseline, freqTable.
  destruct merged as [| m ms].
  - rewrite firstn_nil. reflexivity.
  - change (List.length (m :: ms) =? 0)%nat with false. cbv iota.
    destruct (fold_left baselineStep (firstn n (m :: ms)) ([], []))
      as [freq sc].
    reflexivity.
Qed.

Lemma byCountDesc_false a b : byCountDesc a b = false -> descCount a b.
Proof.
  unfold byCountDesc, descCount. intros H.
  destruct (Z.gtb_spec (snd b - snd a) 0); [discriminate | lia].
Qed.

Lemma byCountDesc_true a b : byCountDesc a b = true -> descCount b a.
Proof.
  unfold byCountDesc, descCount. intros H.
  destruct (Z.gtb_spec (snd b - snd a) 0); [lia | discriminate].
Qed.

Lemma entries_In (w : list (list PRFile)) (p : string) (c : Z) :
  In (p, c) (sortBy byCountDesc (freqTable w)) <-> c = freqOf w p /\ 0 < c.
Proof. rewrite sortBy_In. apply freqTable_In. Qed.

Lemma entries_NoDup (w : list (list PRFile)) :
  NoDup (map fst (sortBy byCountDesc (freqTable w))).
Proof.
  apply (Permutation_NoDup
           (Permutation_map fst (sortBy_perm byCountDesc (freqTable w)))).
  apply freqTable_NoDup.
Qed.

Lemma thresholdOf_In (w : list (list PRFile)) (p : string) :
  In p (thresholdOf (sortBy byCountDesc (freqTable w))) <-> 3 <= freqOf w p.
Proof.
  unfold thresholdOf. rewrite in_map_iff. split.
  - intros ([q c] & Hq & Hin). simpl in Hq. subst q.
    apply filter_In in Hin. destruct Hin as [Hin Hc]. simpl in Hc.
    apply entries_In in Hin. destruct Hin as [-> _].
    apply Z.geb_le in Hc. exact Hc.
  - intros H3. exists (p, freqOf w p). split; [reflexivity |].
    apply filter_In. split.
    + apply entries_In. split; [reflexivity | lia].
    + simpl. apply Z.geb_le. exact H3.
Qed.

Lemma hotspotsOf_In (w : list (list PRFile)) (p : string) :
  In p (hotspotsOf (freqTable w))
  <-> In p (top10Of (sortBy byCountDesc (freqTable w))) \/ 3 <= freqOf w p.
Proof.
  unfold hotspotsOf. rewrite of_list_In, in_app_iff, thresholdOf_In.
  reflexivity.
Qed.

Lemma hotspotsOf_few (w : list (list PRFile)) (p : string) :
  (List.length (sortBy byCountDesc (freqTable w)) <= 10)%nat ->
  (In p (hotspotsOf (freqTable w)) <-> 0 < freqOf w p).
Proof.
  intros Hlen. rewrite hotspotsOf_In. unfold top10Of.
  rewrite firstn_all2 by exact Hlen. split.
  - intros [H | H]; [| lia].
    apply in_map_iff in H. destruct H as ([q c] & Hq & Hin).
    simpl in Hq. subst q. apply entries_In in Hin. lia.
  - intros H. left. apply in_map_iff. exists (p, freqOf w p).
    split; [reflexivity |]. apply entries_In. split; [reflexivity | exact H].
Qed.

Lemma scenario_C_hotspots :
  hotspotFiles (computeBaseline 20 windowC) = ["src/a.ext"; "infra/x.yml"]%string
  /\ hotspotFiles (computeBaseline 20 windowC3)
     = ["src/a.ext"; "infra/x.yml"]%string.
Proof.
  rewrite !hotspotFiles_computeBaseline, !freqTable_touch.
  split; vm_compute; reflexivity.
Qed.

End HotspotFacts.

Lemma scenario_wide_hotspots :
  hotspotFiles (computeBaseline 20 windowWide)
  = [ "lib/f12.ts"; "lib/f01.ts"; "lib/f02.ts"; "lib/f03.ts"; "lib/f04.ts";
      "lib/f05.ts"; "lib/f06.ts"; "lib/f07.ts"; "lib/f08.ts";
      "lib/f09.ts" ]%string.
Proof.
  rewrite hotspotFiles_computeBaseline, freqTable_touch.
  vm_compute. reflexivity.
Qed.

(** The hotspots below the threshold all come from the first ten
    entries, so there are at most ten of them. *)
Lemma low_hotspots_at_most_10 (w : list (list PRFile)) :
  (List.length (filter (fun p => (freqOf w p <? 3)%Z) (hotspotsOf (freqTable w)))
   <= 10)%nat.
Proof.
  set (entries := sortBy byCountDesc (freqTable w)).
  apply (Nat.le_trans _ (List.length (map fst (firstn 10 entries)))).
  - apply NoDup_incl_length.
    + apply NoDup_filter. unfold hotspotsOf. apply of_list_NoDup.
    + intros p Hp. apply filter_In in Hp. destruct Hp as [Hin Hlow].
      apply Z.ltb_lt in Hlow. apply hotspotsOf_In in Hin.
      destruct Hin as [Hin | Hin]; [exact Hin | lia].
  - rewrite length_map. apply firstn_le_length.
Qed.

(** C5. The hotspot set [computeBaseline] derives from a historical
    window is the union of the first 10 of the touched paths sorted by
    touch frequency, highest first, and of the paths whose frequency is
    at least 3; so at most 10 hotspots have a frequency below 3.  When
    at most 10 (in particular fewer than 10) distinct paths were
    touched, every touched path is a hotspot: with [src/a.ext] touched 3
    times and [infra/x.yml] once, both are.  With 12 distinct paths, one
    of them touched 3 times, the hotspots are that path and the first 9
    of the others. *)
Theorem hotspots_top10_or_threshold (n : nat) (merged : list (list PRFile)) :
  let window := firstn n merged in
  let entries := sortBy byCountDesc (freqTable window) in
  let hot := hotspotFiles (computeBaseline n merged) in
  (forall p c, In (p, c) entries <-> c = freqOf window p /\ 0 < c)
  /\ NoDup (map fst entries)
  /\ StronglySorted descCount entries
  /\ (forall p, In p hot
                <-> In p (map fst (firstn 10 entries))
                    \/ 3 <= freqOf window p)
  /\ NoDup hot
  /\ (List.length (filter (fun p => (freqOf window p <? 3)%Z) hot) <= 10)%nat
  /\ ((List.length entries <= 10)%nat ->
      forall p, In p hot <-> 0 < freqOf window p)
  /\ hotspotFiles (computeBaseline 20 windowC)
     = ["src/a.ext"; "infra/x.yml"]%string
  /\ hotspotFiles (computeBaseline 20 windowC3)
     = ["src/a.ext"; "infra/x.yml"]%string
  /\ hotspotFiles (computeBaseline 20 windowWide)
     = [ "lib/f12.ts"; "lib/f01.ts"; "lib/f02.ts"; "lib/f03.ts";
         "lib/f04.ts"; "lib/f05.ts"; "lib/f06.ts"; "lib/f07.ts";
         "lib/f08.ts"; "lib/f09.ts" ]%string.
Proof.
  cbv zeta. rewrite hotspotFiles_computeBaseline.
  split; [intros p c; apply entries_In |].
  split; [apply entries_NoDup |].
  split.
  { apply sortBy_sorted.
    - intros x y z. unfold descCount. lia.
    - apply byCountDesc_false.
    - apply byCountDesc_true. }
  split.
  { intros p. rewrite hotspotsOf_In. unfold top10Of. reflexivity. }
  split; [apply of_list_NoDup |].
  split; [apply low_hotspots_at_most_10 |].
  split; [intros Hlen p; now apply hotspotsOf_few |].
  destruct scenario_C_hotspots as [HC HC3].
  split; [exact HC |]. split; [exact HC3 |].
  apply scenario_wide_hotspots.
Qed.

Lemma hotspots_top10_or_threshold_witness :
  let entries := sortBy byCountDesc (freqTable (firstn 20 windowC)) in
  let wide := sortBy byCountDesc (freqTable (firstn 20 windowWide)) in
  ((List.length entries <= 10)%nat
   /\ 0 < freqOf (firstn 20 windowC) "infra/x.yml"
   /\ In "infra/x.yml"%string (hotspotFiles (computeBaseline 20 windowC)))
  /\ (0 < freqOf (firstn 20 windowWide) "lib/f10.ts"
      /\ ~ (In "lib/f10.ts"%string (map fst (firstn 10 wide))
            \/ 3 <= freqOf (firstn 20 windowWide) "lib/f10.ts")
      /\ ~ In "lib/f10.ts"%string
             (hotspotFiles (computeBaseline 20 windowWide))).
Proof.
  cbv zeta. split.
  - assert (Hlen : (List.length
                      (sortBy byCountDesc (freqTable (firstn 20 windowC)))
                    <= 10)%nat).
    { rewrite sortBy_length, freqTable_touch. vm_compute. lia. }
    assert (Hfreq : 0 < freqOf (firstn 20 windowC) "infra/x.yml")
      by (vm_compute; reflexivity).
    split; [exact Hlen |]. split; [exact Hfreq |].
    exact (proj2 (proj1 (proj2 (proj2 (proj2 (proj2 (proj2 (proj2
             (hotspots_top10_or_threshold 20 windowC)))))))
             Hlen "infra/x.yml"%string) Hfreq).
  - assert (Htouched : 0 < freqOf (firstn 20 windowWide) "lib/f10.ts")
      by (vm_compute; reflexivity).
    assert (Hout : ~ (In "lib/f10.ts"%string
                        (map fst (firstn 10
                           (sortBy byCountDesc
                              (freqTable (firstn 20 windowWide)))))
                      \/ 3 <= freqOf (firstn 20 windowWide) "lib/f10.ts")).
    { rewrite freqTable_touch. vm_compute.
      intros [H | H]; [| now apply H].
      repeat (destruct H as [H | H]; [discriminate H |]). exact H. }
    split; [exact Htouched |]. split; [exact Hout |].
    intros Hin. apply Hout.
    exact (proj1 (proj1 (proj2 (proj2 (proj2
             (hotspots_top10_or_threshold 20 windowWide))))
             "lib/f10.ts"%string) Hin).
Defined.

(** * Further properties of the code *)

(** ** Path predicates *)

Section PathFacts.

Import Str.
Local Open Scope string_scope.

Lemma lowerChar_idem (c : ascii) : lowerChar (lowerChar c) = lowerChar c.
Proof. destruct c as [[] [] [] [] [] [] [] []]; reflexivity. Qed.

Lemma toLowerCase_idem (s : string) : toLowerCase (toLowerCase s) = toLowerCase s.
Proof.
  induction s as [| c s IH]; simpl; [reflexivity |].
  now rewrite lowerChar_idem, IH.
Qed.

Lemma slash_lowerChar (c : ascii) :
  Ascii.eqb "/" (lowerChar c) = Ascii.eqb "/" c.
Proof. destruct c as [[] [] [] [] [] [] [] []]; reflexivity. Qed.

Lemma includes_slash_lower (p : string) :
  includes "/" (toLowerCase p) = includes "/" p.
Proof.
  induction p as [| c p IH]; [reflexivity |].
  cbn [toLowerCase includes startsWith]. rewrite slash_lowerChar, IH.
  reflexivity.
Qed.

Lemma isDepsPath_cases (p : string) :
  isDepsPath p = true -> In (toLowerCase p) depsFiles.
Proof. unfold isDepsPath. apply has_In. Qed.

End PathFacts.

(** X1. The five path predicates ignore ASCII case: two paths with the
    same lower-case form get the same five answers, and so do a path and
    its lower-case form. *)
Theorem path_predicates_ignore_case (p q : string) :
  (Str.toLowerCase p = Str.toLowerCase q ->
   isDocsPath p = isDocsPath q /\ isInfraPath p = isInfraPath q
   /\ isCorePath p = isCorePath q /\ isTestsPath p = isTestsPath q
   /\ isDepsPath p = isDepsPath q)
  /\ isDocsPath (Str.toLowerCase p) = isDocsPath p
  /\ isInfraPath (Str.toLowerCase p) = isInfraPath p
  /\ isCorePath (Str.toLowerCase p) = isCorePath p
  /\ isTestsPath (Str.toLowerCase p) = isTestsPath p
  /\ isDepsPath (Str.toLowerCase p) = isDepsPath p.
Proof.
  split.
  - intros H.
    unfold isDocsPath, isInfraPath, isCorePath, isTestsPath, isDepsPath.
    rewrite H. repeat split; reflexivity.
  - unfold isDocsPath, isInfraPath, isCorePath, isTestsPath, isDepsPath.
    rewrite toLowerCase_idem. repeat split; reflexivity.
Qed.

Lemma path_predicates_ignore_case_witness :
  Str.toLowerCase "SRC/Main.TS" = Str.toLowerCase "src/main.ts"
  /\ isCorePath "SRC/Main.TS" = isCorePath "src/main.ts".
Proof.
  assert (H : Str.toLowerCase "SRC/Main.TS" = Str.toLowerCase "src/main.ts")
    by reflexivity.
  split; [exact H |].
  exact (proj1 (proj2 (proj2
           (proj1 (path_predicates_ignore_case "SRC/Main.TS" "src/main.ts") H)))).
Defined.

(** X2. A dependency manifest is matched by its whole path: a path that
    [isDepsPath] accepts holds no slash, is neither a core, a tests nor a
    documentation path, and is an infra path exactly when it is
    [pnpm-lock.yaml] (in any case). *)
Theorem isDepsPath_exclusive (p : string) :
  isDepsPath p = true ->
  Str.includes "/" p = false
  /\ isCorePath p = false /\ isTestsPath p = false /\ isDocsPath p = false
  /\ (isInfraPath p = true <-> Str.toLowerCase p = "pnpm-lock.yaml"%string).
Proof.
  intros H. apply isDepsPath_cases in H.
  rewrite <- includes_slash_lower.
  unfold isCorePath, isTestsPath, isDocsPath, isInfraPath.
  cbn [depsFiles In] in H.
  destruct H as [H | [H | [H | [H | [H | [H | [H | []]]]]]]];
    rewrite <- H;
    (split; [reflexivity |]); (split; [reflexivity |]);
    (split; [reflexivity |]); (split; [reflexivity |]);
    split; intros E; (reflexivity || discriminate E).
Qed.

Lemma isDepsPath_exclusive_witness :
  isDepsPath "Package.JSON" = true
  /\ Str.includes "/" "Package.JSON" = false
  /\ isCorePath "Package.JSON" = false.
Proof.
  assert (H : isDepsPath "Package.JSON" = true) by reflexivity.
  split; [exact H |].
  destruct (isDepsPath_exclusive "Package.JSON" H) as (H1 & H2 & _).
  split; [exact H1 | exact H2].
Defined.

(** ** classifyFiles: what the counters hold *)

Lemma orZero_id (x : Z) : orZero x = x.
Proof. unfold orZero. destruct (Z.eqb_spec x 0); congruence. Qed.

Lemma classifyFiles_fields (files : list PRFile) (hotspotSet : JSSet.t) :
  let c := classifyFiles files hotspotSet in
  cF c = Z.of_nat (List.length files)
  /\ cL c = fold_right Z.add 0 (map linesOf files)
  /\ cC c = countIf (fun f => isCorePath (filename f)) files
  /\ cT c = countIf (fun f => isTestsPath (filename f)) files
  /\ cD c = countIf (fun f => isDepsPath (filename f)) files
  /\ cI c = countIf (fun f => isInfraPath (filename f)) files
  /\ cH c = countIf (fun f => JSSet.has hotspotSet (filename f)) files.
Proof.
  cbv zeta. unfold classifyFiles, classifyLoop.
  rewrite fold_classify_spec. cbn. repeat split.
Qed.

Lemma countIf_app p (l1 l2 : list PRFile) :
  countIf p (l1 ++ l2) = countIf p l1 + countIf p l2.
Proof.
  unfold countIf. rewrite filter_app, length_app. lia.
Qed.

Lemma countIf_mono (p q : PRFile -> bool) (l : list PRFile) :
  (forall f, p f = true -> q f = true) -> countIf p l <= countIf q l.
Proof.
  intros Hpq. induction l as [| f l IH]; [unfold countIf; simpl; lia |].
  rewrite !countIf_cons. unfold bump.
  destruct (p f) eqn:Ep.
  - rewrite (Hpq f Ep). lia.
  - destruct (q f); lia.
Qed.

Lemma countIf_length_all p (l : list PRFile) :
  countIf p l = Z.of_nat (List.length l) ->
  Forall (fun f => p f = true) l.
Proof.
  induction l as [| f l IH]; intros H; [constructor |].
  rewrite countIf_cons in H. simpl List.length in H.
  pose proof (countIf_bounds p l) as Hb.
  unfold bump in H. destruct (p f) eqn:Ep.
  - constructor; [exact Ep |]. apply IH. lia.
  - lia.
Qed.

Lemma sum_linesOf (files : list PRFile) :
  fold_right Z.add 0 (map linesOf files)
  = fold_right Z.add 0 (map (fun f => additions f + deletions f) files).
Proof.
  induction files as [| f l IH]; simpl; [reflexivity |].
  unfold linesOf at 1. now rewrite !orZero_id, IH.
Qed.

(** X3. [F] is the number of files, and each of C, T, D, I, H lies
    between 0 and [F]. *)
Theorem classifyFiles_count_bounds (files : list PRFile) (hotspotSet : JSSet.t) :
  let c := classifyFiles files hotspotSet in
  cF c = Z.of_nat (List.length files)
  /\ 0 <= cC c <= cF c /\ 0 <= cT c <= cF c /\ 0 <= cD c <= cF c
  /\ 0 <= cI c <= cF c /\ 0 <= cH c <= cF c.
Proof.
  cbv zeta.
  destruct (classifyFiles_fields files hotspotSet)
    as (HF & _ & HC & HT & HD & HI & HH).
  rewrite HF, HC, HT, HD, HI, HH.
  repeat split; apply countIf_bounds.
Qed.

(** X4. [L] is the sum over the files of additions plus deletions (the
    [|| 0] guards change nothing on whole numbers), and it is not
    negative when no file has a negative count. *)
Theorem classifyFiles_lines (files : list PRFile) (hotspotSet : JSSet.t) :
  cL (classifyFiles files hotspotSet)
  = fold_right Z.add 0 (map (fun f => additions f + deletions f) files)
  /\ (Forall (fun f => 0 <= additions f /\ 0 <= deletions f) files ->
      0 <= cL (classifyFiles files hotspotSet)).
Proof.
  destruct (classifyFiles_fields files hotspotSet) as (_ & HL & _).
  rewrite HL.
  pose proof (sum_linesOf files) as Hsum.
  split; [exact Hsum |].
  rewrite Hsum. intros Hall. clear HL Hsum.
  induction Hall as [| f l [Ha Hd] _ IH]; simpl; lia.
Qed.

Lemma classifyFiles_lines_witness :
  let files := [mkFile "src/a.ts" 12 0; mkFile "b.txt" 0 7] in
  Forall (fun f => 0 <= additions f /\ 0 <= deletions f) files
  /\ 0 <= cL (classifyFiles files []).
Proof.
  cbv zeta.
  assert (H : Forall (fun f => 0 <= additions f /\ 0 <= deletions f)
                [mkFile "src/a.ts" 12 0; mkFile "b.txt" 0 7]).
  { repeat constructor; simpl; lia. }
  split; [exact H |].
  exact (proj2 (classifyFiles_lines _ []) H).
Defined.

(** X5. [docsOnly] holds exactly when the file list is not empty and
    every path is a documentation path. *)
Theorem docsOnly_iff (files : list PRFile) (hotspotSet : JSSet.t) :
  docsOnly (classifyFiles files hotspotSet) = true
  <-> files <> [] /\ Forall (fun f => isDocsPath (filename f) = true) files.
Proof.
  split; [| intros [Hne Hall]; now apply docsOnly_all_docs].
  unfold classifyFiles, classifyLoop. rewrite fold_classify_spec.
  cbn [docsOnly docsCount tally0]. intros H.
  apply andb_true_iff in H. destruct H as [Hlen Hcnt].
  apply Z.gtb_lt in Hlen. apply Z.eqb_eq in Hcnt. split.
  - intros ->. simpl in Hlen. lia.
  - apply countIf_length_all. lia.
Qed.

(** X6. The counters of a concatenated file list are the sums of the
    counters of its parts: the pass can be run on chunks. *)
Theorem classifyFiles_app (files1 files2 : list PRFile) (hotspotSet : JSSet.t) :
  let c := classifyFiles (files1 ++ files2) hotspotSet in
  let c1 := classifyFiles files1 hotspotSet in
  let c2 := classifyFiles files2 hotspotSet in
  cF c = cF c1 + cF c2 /\ cL c = cL c1 + cL c2 /\ cC c = cC c1 + cC c2
  /\ cT c = cT c1 + cT c2 /\ cD c = cD c1 + cD c2 /\ cI c = cI c1 + cI c2
  /\ cH c = cH c1 + cH c2.
Proof.
  cbv zeta.
  destruct (classifyFiles_fields (files1 ++ files2) hotspotSet)
    as (HF & HL & HC & HT & HD & HI & HH).
  destruct (classifyFiles_fields files1 hotspotSet)
    as (HF1 & HL1 & HC1 & HT1 & HD1 & HI1 & HH1).
  destruct (classifyFiles_fields files2 hotspotSet)
    as (HF2 & HL2 & HC2 & HT2 & HD2 & HI2 & HH2).
  rewrite HF, HL, HC, HT, HD, HI, HH, HF1, HL1, HC1, HT1, HD1, HI1, HH1,
    HF2, HL2, HC2, HT2, HD2, HI2, HH2.
  rewrite !countIf_app, length_app, map_app.
  repeat split; try lia.
  clear. induction files1 as [| f l IH]; simpl; lia.
Qed.

(** X7. The hotspot set only drives [H]: every other field is the same
    for any two hotspot sets, [H] is 0 for the empty set, and [H] does
    not decrease when the set grows. *)
Theorem classifyFiles_hotspots (files : list PRFile) (hs hs' : JSSet.t) :
  let c := classifyFiles files hs in
  let c' := classifyFiles files hs' in
  (cF c = cF c' /\ cL c = cL c' /\ cC c = cC c' /\ cT c = cT c'
   /\ cD c = cD c' /\ cI c = cI c' /\ docsOnly c = docsOnly c'
   /\ testCoverage c = testCoverage c')
  /\ cH (classifyFiles files []) = 0
  /\ ((forall p, JSSet.has hs p = true -> JSSet.has hs' p = true) ->
      cH c <= cH c').
Proof.
  cbv zeta. unfold classifyFiles, classifyLoop.
  rewrite !fold_classify_spec. cbn.
  split; [repeat split |]. split.
  - unfold countIf. induction files as [| f l IH]; simpl; [reflexivity | exact IH].
  - intros Hincl. apply countIf_mono. intros f. apply Hincl.
Qed.

Lemma classifyFiles_hotspots_witness :
  let files := [mkFile "src/a.ts" 1 1; mkFile "src/b.ts" 2 0] in
  (forall p, JSSet.has ["src/a.ts"%string] p = true ->
             JSSet.has ["src/b.ts"; "src/a.ts"]%string p = true)
  /\ cH (classifyFiles files ["src/a.ts"%string])
     <= cH (classifyFiles files ["src/b.ts"; "src/a.ts"]%string).
Proof.
  cbv zeta.
  assert (H : forall p, JSSet.has ["src/a.ts"%string] p = true ->
                        JSSet.has ["src/b.ts"; "src/a.ts"]%string p = true).
  { intros p Hp. unfold JSSet.has in *. simpl in *.
    apply orb_true_iff in Hp. destruct Hp as [Hp | Hp]; [| discriminate Hp].
    rewrite Hp. now rewrite orb_true_r. }
  split; [exact H |].
  exact (proj2 (proj2 (classifyFiles_hotspots _ _ _)) H).
Defined.

(** ** Test coverage and the score engine *)

Section ScoreMoreFacts.

Local Open Scope R_scope.

Lemma Rmax_1_count (n : Z) : (0 <= n)%Z -> Rmax 1 (IZR n) = IZR (Z.max 1 n).
Proof.
  intros Hn. destruct (Z.le_gt_cases 1 n) as [H | H].
  - rewrite Z.max_r by exact H. apply Rmax_right. now apply IZR_le.
  - replace n with 0%Z by lia. rewrite Z.max_l by lia. apply Rmax_left. lra.
Qed.

Lemma testCoverage_classify (files : list PRFile) (hs : JSSet.t) :
  let c := classifyFiles files hs in
  testCoverage c = IZR (cT c) / IZR (Z.max 1 (cC c))
  /\ (0 <= cT c)%Z /\ (0 <= cC c)%Z.
Proof.
  cbv zeta.
  destruct (classifyFiles_fields files hs) as (_ & _ & HC & HT & _).
  pose proof (countIf_bounds (fun f => isCorePath (filename f)) files) as HbC.
  pose proof (countIf_bounds (fun f => isTestsPath (filename f)) files) as HbT.
  rewrite HC, HT. split; [| lia].
  unfold classifyFiles, classifyLoop. rewrite fold_classify_spec.
  cbn [testCoverage tT tC tally0]. rewrite !Z.add_0_l.
  rewrite Rmax_1_count by lia. reflexivity.
Qed.

Lemma Rmax_IZR (a b : Z) : Rmax (IZR a) (IZR b) = IZR (Z.max a b).
Proof.
  destruct (Z.le_gt_cases a b) as [H | H].
  - rewrite Z.max_r by exact H. apply Rmax_right. now apply IZR_le.
  - rewrite Z.max_l by lia. apply Rmax_left. apply IZR_le. lia.
Qed.

Lemma Rmin_IZR (a b : Z) : Rmin (IZR a) (IZR b) = IZR (Z.min a b).
Proof.
  destruct (Z.le_gt_cases a b) as [H | H].
  - rewrite Z.min_l by exact H. apply Rmin_left. now apply IZR_le.
  - rewrite Z.min_r by lia. apply Rmin_right. apply IZR_le. lia.
Qed.

Lemma clamp_IZR (lo hi z : Z) :
  clamp (IZR lo) (IZR hi) (IZR z) = IZR (Z.max lo (Z.min hi z)).
Proof. unfold clamp. now rewrite Rmin_IZR, Rmax_IZR. Qed.

Lemma score_integer (c : ClassifiedCounts) :
  exists z : Z, score (computeScores c) = IZR z /\ (0 <= z <= 100)%Z.
Proof.
  unfold computeScores; cbn [score]. unfold round.
  match goal with |- context [Zfloor ?x] => set (k := Zfloor x) end.
  rewrite (clamp_IZR 0 100 k).
  destruct (docsOnly c).
  - rewrite (Rmin_IZR _ 25). eexists. split; [reflexivity | lia].
  - eexists. split; [reflexivity | lia].
Qed.

Lemma verdict_unfold (c : ClassifiedCounts) :
  verdictEmoji (computeScores c)
  = if Rleb (score (computeScores c)) 39 then Green
    else if Rleb (score (computeScores c)) 69 then Yellow else Red.
Proof. reflexivity. Qed.

End ScoreMoreFacts.

(** X8. The test coverage [classifyFiles] returns is never negative; it
    is T itself when no core file changed and T/C otherwise, and it is
    below 1 exactly when T < max(1, C). *)
Theorem testCoverage_values (files : list PRFile) (hotspotSet : JSSet.t) :
  let c := classifyFiles files hotspotSet in
  (0 <= testCoverage c)%R
  /\ (cC c = 0 -> testCoverage c = IZR (cT c))
  /\ (0 < cC c -> testCoverage c = (IZR (cT c) / IZR (cC c))%R)
  /\ ((testCoverage c < 1)%R <-> cT c < Z.max 1 (cC c)).
Proof.
  cbv zeta.
  destruct (testCoverage_classify files hotspotSet) as (Htc & HT & HC).
  set (c := classifyFiles files hotspotSet) in *.
  assert (Hm : (1 <= IZR (Z.max 1 (cC c)))%R) by (apply IZR_le; lia).
  assert (HT' : (0 <= IZR (cT c))%R) by now apply IZR_le.
  rewrite Htc. split; [| split; [| split]].
  - apply Rmult_le_pos; [exact HT' |].
    apply Rlt_le, Rinv_0_lt_compat. lra.
  - intros H0. rewrite H0. change (Z.max 1 0) with 1. unfold Rdiv.
    now rewrite Rinv_1, Rmult_1_r.
  - intros Hpos. now rewrite Z.max_r by lia.
  - split.
    + intros Hlt. apply lt_IZR.
      apply (Rmult_lt_compat_r (IZR (Z.max 1 (cC c)))) in Hlt; [| lra].
      unfold Rdiv in Hlt. rewrite Rmult_assoc, Rinv_l in Hlt by lra. lra.
    + intros Hlt. apply IZR_lt in Hlt.
      apply (Rmult_lt_reg_r (IZR (Z.max 1 (cC c)))); [lra |].
      unfold Rdiv. rewrite Rmult_assoc, Rinv_l by lra. lra.
Qed.

Lemma testCoverage_values_witness :
  let c := classifyFiles [mkFile "src/a.ts" 3 1; mkFile "src/b.ts" 5 0;
                          mkFile "tests/a.test.ts" 9 0] [] in
  0 < cC c /\ testCoverage c = (IZR (cT c) / IZR (cC c))%R.
Proof.
  cbv zeta.
  assert (H : 0 < cC (classifyFiles
                        [mkFile "src/a.ts" 3 1; mkFile "src/b.ts" 5 0;
                         mkFile "tests/a.test.ts" 9 0] []))
    by (vm_compute; reflexivity).
  split; [exact H |].
  exact (proj1 (proj2 (proj2 (testCoverage_values _ []))) H).
Defined.

Lemma subscores_bounds (c : ClassifiedCounts) :
  let s := computeScores c in
  (0 <= S_size s <= 100 /\ 0 <= S_deps s <= 100 /\ 0 <= S_infra s <= 100
   /\ 0 <= S_hot s <= 100 /\ 0 <= S_quality s <= 100
   /\ 0 <= base s <= 100 /\ 1 <= amp s <= 1.4)%R.
Proof.
  cbv zeta. unfold computeScores.
  cbn [S_size S_deps S_infra S_hot S_quality base amp].
  repeat match goal with
         | |- context [clamp 0 100 ?x] =>
             let H := fresh "Hc" in
             let v := fresh "v" in
             pose proof (clamp_range 0 100 x ltac:(lra)) as H;
             set (v := clamp 0 100 x) in *; clearbody v
         end.
  repeat split; try lra.
  - apply Rmin_glb; [lra |].
    destruct ((cC c >? 0) && (cT c =? 0))%bool;
      destruct ((cD c >? 0) && (cI c >? 0))%bool;
      destruct ((cC c >? 0) && (cD c >? 0))%bool;
      destruct (cH c >=? 2); lra.
  - apply Rmin_l.
Qed.

(** X9. For every tuple of counts the five sub-scores and the weighted
    base lie in [0,100] and the amplification in [1, 1.4]. *)
Theorem subscores_range (c : ClassifiedCounts) :
  let s := computeScores c in
  (0 <= S_size s <= 100 /\ 0 <= S_deps s <= 100 /\ 0 <= S_infra s <= 100
   /\ 0 <= S_hot s <= 100 /\ 0 <= S_quality s <= 100
   /\ 0 <= base s <= 100 /\ 1 <= amp s <= 1.4)%R.
Proof.
  cbv zeta. unfold computeScores.
  cbn [S_size S_deps S_infra S_hot S_quality base amp].
  repeat match goal with
         | |- context [clamp 0 100 ?x] =>
             let H := fresh "Hc" in
             let v := fresh "v" in
             pose proof (clamp_range 0 100 x ltac:(lra)) as H;
             set (v := clamp 0 100 x) in *; clearbody v
         end.
  repeat split; try lra.
  - apply Rmin_glb; [lra |].
    destruct ((cC c >? 0) && (cT c =? 0))%bool;
      destruct ((cD c >? 0) && (cI c >? 0))%bool;
      destruct ((cC c >? 0) && (cD c >? 0))%bool;
      destruct (cH c >=? 2); lra.
  - apply Rmin_l.
Qed.

(** X10. The final score and the review minutes are whole numbers. *)
Theorem score_and_minutes_integers (c : ClassifiedCounts) :
  (exists z : Z, score (computeScores c) = IZR z /\ 0 <= z <= 100)
  /\ (exists m : Z, reviewMinutes (computeScores c) = IZR m /\ 5 <= m <= 90).
Proof.
  split; [apply score_integer |].
  unfold computeScores; cbn [reviewMinutes].
  unfold computeReviewMinutes, round.
  match goal with |- context [Zfloor ?x] => set (k := Zfloor x) end.
  rewrite (clamp_IZR 5 90 k). eexists. split; [reflexivity | lia].
Qed.

Lemma verdict_of_score (c : ClassifiedCounts) :
  let s := computeScores c in
  (verdictEmoji s = Green <-> (score s <= 39)%R)
  /\ (verdictEmoji s = Yellow <-> (40 <= score s <= 69)%R)
  /\ (verdictEmoji s = Red <-> (70 <= score s)%R).
Proof.
  cbv zeta. rewrite verdict_unfold.
  destruct (score_integer c) as (z & Hz & _). rewrite Hz.
  unfold Rleb.
  destruct (Rle_dec (IZR z) 39) as [H39 | H39];
    [| destruct (Rle_dec (IZR z) 69) as [H69 | H69]].
  - repeat split; intros; try discriminate; try reflexivity; lra.
  - assert (Hz40 : (40 <= z)%Z).
    { destruct (Z.le_gt_cases 40 z) as [H | H]; [exact H |].
      exfalso. apply H39. apply IZR_le. lia. }
    apply IZR_le in Hz40.
    repeat split; intros; try discriminate; try reflexivity; lra.
  - assert (Hz70 : (70 <= z)%Z).
    { destruct (Z.le_gt_cases 70 z) as [H | H]; [exact H |].
      exfalso. apply H69. apply IZR_le. lia. }
    apply IZR_le in Hz70.
    repeat split; intros; try discriminate; try reflexivity; lra.
Qed.

(** X11. The verdict follows the final score: green exactly for scores
    up to 39, yellow exactly for 40 to 69, red exactly from 70. *)
Theorem verdict_thresholds (c : ClassifiedCounts) :
  let s := computeScores c in
  (verdictEmoji s = Green <-> (score s <= 39)%R)
  /\ (verdictEmoji s = Yellow <-> (40 <= score s <= 69)%R)
  /\ (verdictEmoji s = Red <-> (70 <= score s)%R).
Proof.
  cbv zeta. rewrite verdict_unfold.
  destruct (score_integer c) as (z & Hz & _). rewrite Hz.
  unfold Rleb.
  destruct (Rle_dec (IZR z) 39) as [H39 | H39];
    [| destruct (Rle_dec (IZR z) 69) as [H69 | H69]].
  - repeat split; intros; try discriminate; try reflexivity; lra.
  - assert (Hz40 : (40 <= z)%Z).
    { destruct (Z.le_gt_cases 40 z) as [H | H]; [exact H |].
      exfalso. apply H39. apply IZR_le. lia. }
    apply IZR_le in Hz40.
    repeat split; intros; try discriminate; try reflexivity; lra.
  - assert (Hz70 : (70 <= z)%Z).
    { destruct (Z.le_gt_cases 70 z) as [H | H]; [exact H |].
      exfalso. apply H69. apply IZR_le. lia. }
    apply IZR_le in Hz70.
    repeat split; intros; try discriminate; try reflexivity; lra.
Qed.

Section SaturationFacts.

Local Open Scope R_scope.

Lemma log10_nonneg (x : R) : 1 <= x -> 0 <= log10 x.
Proof.
  intros Hx. unfold log10. pose proof ln10_pos as H10.
  apply Rmult_le_pos; [| apply Rlt_le, Rinv_0_lt_compat; exact H10].
  destruct Hx as [Hx | <-]; [| rewrite ln_1; lra].
  rewrite <- ln_1. apply Rlt_le, ln_increasing; lra.
Qed.

End SaturationFacts.

(** X12. The count-based sub-scores grow linearly and then saturate at
    100: dependencies at 3 manifests, infra at 4 files, hotspots at 5
    files, and size at 13 files whatever the line total. *)
Theorem subscores_saturate (c : ClassifiedCounts) :
  let s := computeScores c in
  (3 <= cD c -> S_deps s = 100%R)
  /\ (4 <= cI c -> S_infra s = 100%R)
  /\ (5 <= cH c -> S_hot s = 100%R)
  /\ (13 <= cF c -> S_size s = 100%R)
  /\ (0 <= cD c <= 2 -> S_deps s = (35 * IZR (cD c))%R)
  /\ (0 <= cI c <= 4 -> S_infra s = (25 * IZR (cI c))%R)
  /\ (0 <= cH c <= 5 -> S_hot s = (20 * IZR (cH c))%R).
Proof.
  cbv zeta. unfold computeScores. cbn [S_size S_deps S_infra S_hot].
  repeat split; intros H.
  - apply clamp_high; [lra |]. apply IZR_le in H. lra.
  - apply clamp_high; [lra |]. apply IZR_le in H. lra.
  - apply clamp_high; [lra |]. apply IZR_le in H. lra.
  - apply clamp_high; [lra |]. apply IZR_le in H.
    assert (Hl : (0 <= log10 (1 + Rmax 0 (IZR (cL c))))%R).
    { apply log10_nonneg. pose proof (Rmax_l 0 (IZR (cL c))). lra. }
    lra.
  - destruct H as [H1 H2]. apply IZR_le in H1, H2. apply clamp_id. lra.
  - destruct H as [H1 H2]. apply IZR_le in H1, H2. apply clamp_id. lra.
  - destruct H as [H1 H2]. apply IZR_le in H1, H2. apply clamp_id. lra.
Qed.

Lemma subscores_saturate_witness :
  let c := mkCounts 4 200 0 0 3 0 0 false 0 in
  3 <= cD c /\ S_deps (computeScores c) = 100%R.
Proof.
  cbv zeta.
  assert (H : 3 <= cD (mkCounts 4 200 0 0 3 0 0 false 0)) by (simpl; lia).
  split; [exact H |].
  exact (proj1 (subscores_saturate (mkCounts 4 200 0 0 3 0 0 false 0)) H).
Defined.

(** X13. In an analysis the quality sub-score is 60 when no test file
    changed, 0 once the test files are at least max(1, C), and
    60 * (1 - T / max(1, C)) in between; it never exceeds 60. *)
Theorem quality_from_tests (files : list PRFile) (hotspotSet : JSSet.t) :
  let r := analyze files hotspotSet in
  let q := S_quality (scores r) in
  let C := cC (counts r) in
  let T := cT (counts r) in
  (0 <= q <= 60)%R
  /\ (T = 0 -> q = 60%R)
  /\ (Z.max 1 C <= T -> q = 0%R)
  /\ (T < Z.max 1 C -> q = (60 * (1 - IZR T / IZR (Z.max 1 C)))%R).
Proof.
  cbv zeta. unfold analyze. cbn [scores counts].
  destruct (testCoverage_classify files hotspotSet) as (Htc & HT & HC).
  set (c := classifyFiles files hotspotSet) in *.
  unfold computeScores. cbn [S_quality]. rewrite Htc.
  assert (Hm : (1 <= IZR (Z.max 1 (cC c)))%R) by (apply IZR_le; lia).
  assert (HT' : (0 <= IZR (cT c))%R) by now apply IZR_le.
  set (m := IZR (Z.max 1 (cC c))) in *.
  assert (Htc0 : (0 <= IZR (cT c) / m)%R).
  { apply Rmult_le_pos; [exact HT' |].
    apply Rlt_le, Rinv_0_lt_compat. lra. }
  assert (Hmin : (0 <= Rmin 1 (IZR (cT c) / m) <= 1)%R).
  { split; [apply Rmin_glb; lra | apply Rmin_l]. }
  split; [| split; [| split]].
  - rewrite clamp_id by lra. lra.
  - intros H0. rewrite H0. unfold Rdiv. rewrite Rmult_0_l.
    rewrite Rmin_right by lra. rewrite clamp_id by lra. lra.
  - intros Hle. apply IZR_le in Hle. fold m in Hle.
    assert (H1 : (1 <= IZR (cT c) / m)%R).
    { apply (Rmult_le_reg_r m); [lra |].
      unfold Rdiv. rewrite Rmult_assoc, Rinv_l by lra. lra. }
    rewrite Rmin_left by exact H1. rewrite clamp_id by lra. lra.
  - intros Hlt. apply IZR_lt in Hlt. fold m in Hlt.
    assert (H1 : (IZR (cT c) / m < 1)%R).
    { apply (Rmult_lt_reg_r m); [lra |].
      unfold Rdiv. rewrite Rmult_assoc, Rinv_l by lra. lra. }
    rewrite Rmin_right by lra. rewrite clamp_id by lra. lra.
Qed.

Lemma quality_from_tests_witness :
  let r := analyze [mkFile "src/a.ts" 3 1; mkFile "tests/a.test.ts" 9 0] [] in
  Z.max 1 (cC (counts r)) <= cT (counts r)
  /\ S_quality (scores r) = 0%R.
Proof.
  cbv zeta.
  assert (H : Z.max 1 (cC (counts (analyze
                [mkFile "src/a.ts" 3 1; mkFile "tests/a.test.ts" 9 0] [])))
              <= cT (counts (analyze
                [mkFile "src/a.ts" 3 1; mkFile "tests/a.test.ts" 9 0] []))).
  { unfold analyze. cbn [counts]. unfold classifyFiles. cbn [cC cT].
    vm_compute. discriminate. }
  split; [exact H |].
  exact (proj1 (proj2 (proj2 (quality_from_tests _ []))) H).
Defined.

(** ** The empty change *)

Section EmptyChange.

Local Open Scope R_scope.

Lemma empty_counts (hs : JSSet.t) :
  classifyFiles [] hs = mkCounts 0 0 0 0 0 0 0 false 0.
Proof.
  unfold classifyFiles, classifyLoop.
  cbn [fold_left tally0 tF tL tC tT tD tI tH docsCount List.length Z.of_nat
       Z.gtb Z.compare andb].
  f_equal. rminmax. lra.
Qed.

Lemma empty_subscores :
  let sc := computeScores (mkCounts 0 0 0 0 0 0 0 false 0) in
  S_size sc = 0 /\ S_quality sc = 60 /\ score sc = 12
  /\ reviewMinutes sc = 5 /\ verdictEmoji sc = Green.
Proof.
  cbv zeta. unfold_scores. rminmax.
  replace (1 + 0) with 1 by lra. rewrite log10_1, sqrt_0.
  rclamp.
  rewrite (round_eq _ 12) by lra.
  rewrite (round_eq _ 0) by lra.
  rewrite (clamp_id 0 100 12) by lra.
  rewrite (clamp_low 5 90 0) by lra.
  rewrite Rleb_true by lra.
  repeat split; lra.
Qed.

End EmptyChange.

(** X14. A change without files, whatever the hotspot set, scores 12
    (the quality term of an untested change), takes 5 review minutes,
    is green, is explained by low test coverage and then change size,
    and gets the advice to proceed with normal review. *)
Theorem analyze_empty (hotspotSet : JSSet.t) :
  let r := analyze [] hotspotSet in
  score (scores r) = 12%R
  /\ reviewMinutes (scores r) = 5%R
  /\ verdictEmoji (scores r) = Green
  /\ map key (driversTop3 r) = [LowTestCoverage; LargeChangeSize]
  /\ map contribution (driversTop3 r) = [12%R; 0%R]
  /\ suggested r = ["Proceed with normal review"%string].
Proof.
  cbv zeta. unfold analyze. cbn [scores driversTop3 suggested].
  rewrite empty_counts.
  destruct empty_subscores as (Hsize & Hq & Hs & Hm & Hv).
  split; [exact Hs |]. split; [exact Hm |]. split; [exact Hv |].
  rewrite pickDrivers_sorted_candidates.
  unfold driverCandidates, suggestedActions.
  cbn [cC cT cD cI cH testCoverage docsOnly Z.gtb Z.eqb Z.geb Z.compare
       andb orb].
  rewrite Hsize, Hq, Hs.
  rewrite !Rltb_true by lra.
  rewrite !Rgeb_false by lra.
  cbn [app sortBy insertSorted List.length Nat.eqb firstn andb].
  unfold byContributionDesc; cbn [contribution].
  rewrite Rgtb_true by lra.
  cbn [insertSorted firstn map key contribution].
  repeat split; repeat (f_equal; try lra).
Qed.

(** ** Actions *)

Lemma suggestedActions_cases (c : ClassifiedCounts) (s : R) :
  let out := suggestedActions c s in
  (docsOnly c = true /\ out = [noActionNeeded])
  \/ (docsOnly c = false /\ (70 <= s)%R
      /\ (out = ["Add targeted tests"; "Split this PR"]%string
          \/ out = ["Split this PR"%string]))
  \/ (docsOnly c = false /\ (40 <= s < 70)%R
      /\ (out = ["Add targeted tests"; "Add a focused review checklist"]%string
          \/ out = ["Add a focused review checklist"%string]
          \/ out = ["Add targeted tests"%string]
          \/ out = ["Proceed with normal review"%string]))
  \/ (docsOnly c = false /\ (s < 40)%R
      /\ (out = ["Add targeted tests"%string]
          \/ out = ["Proceed with normal review"%string])).
Proof.
  cbv zeta. unfold suggestedActions, Rgeb.
  destruct (docsOnly c); [left; split; reflexivity |]. right.
  destruct ((cC c >? 0) && (cT c =? 0))%bool;
    destruct (Rle_dec 70 s) as [H70 | H70];
    destruct (Rle_dec 40 s) as [H40 | H40];
    destruct ((cD c >? 0) || (cI c >? 0))%bool;
    cbn [andb app List.length Nat.eqb firstn];
    try (left; split; [reflexivity |]; split; [lra |]; tauto);
    try (right; left; split; [reflexivity |]; split; [lra |]; tauto);
    try (right; right; split; [reflexivity |]; split; [lra |]; tauto).
Qed.

(** X15. The suggested actions are never empty and never more than
    two, hold no entry twice, and "Proceed with normal review" and the
    docs-only entry only ever stand alone. *)
Theorem suggestedActions_shape (c : ClassifiedCounts) (s : R) :
  let out := suggestedActions c s in
  (1 <= List.length out <= 2)%nat
  /\ NoDup out
  /\ (In "Proceed with normal review"%string out ->
      out = ["Proceed with normal review"%string])
  /\ (In noActionNeeded out -> out = [noActionNeeded]).
Proof.
  cbv zeta.
  destruct (suggestedActions_cases c s)
    as [[_ E] | [(_ & _ & [E | E])
       | [(_ & _ & [E | [E | [E | E]]]) | (_ & _ & [E | E])]]];
    rewrite E; cbn [List.length In];
    (split; [lia |]);
    (split; [repeat constructor; cbn [In]; intuition discriminate |]);
    split; intros H;
    repeat match goal with
           | H : _ \/ _ |- _ => destruct H
           | H : False |- _ => destruct H
           end;
    try reflexivity; try discriminate.
Qed.

(** X16. In an analysis the advice agrees with the verdict: a
    docs-only change is green; otherwise "Split this PR" is suggested
    exactly when the verdict is red, the review checklist only when it
    is yellow, and a green verdict leaves only "Add targeted tests" or
    "Proceed with normal review". *)
Theorem actions_follow_verdict (files : list PRFile) (hotspotSet : JSSet.t) :
  let r := analyze files hotspotSet in
  (docsOnly (counts r) = true -> verdictEmoji (scores r) = Green)
  /\ (docsOnly (counts r) = false ->
      (In "Split this PR"%string (suggested r)
       <-> verdictEmoji (scores r) = Red)
      /\ (In "Add a focused review checklist"%string (suggested r) ->
          verdictEmoji (scores r) = Yellow)
      /\ (verdictEmoji (scores r) = Green ->
          suggested r = ["Add targeted tests"%string]
          \/ suggested r = ["Proceed with normal review"%string])).
Proof.
  cbv zeta. unfold analyze. cbn [counts scores suggested].
  set (c := classifyFiles files hotspotSet).
  destruct (verdict_of_score c) as (HG & HY & HR).
  assert (Hmid : (40 <= score (computeScores c) < 70)%R ->
                 verdictEmoji (computeScores c) = Yellow).
  { intros Hs. destruct (verdictEmoji (computeScores c)).
    - pose proof (proj1 HG eq_refl). lra.
    - reflexivity.
    - pose proof (proj1 HR eq_refl). lra. }
  split.
  - intros Hd. apply HG.
    pose proof (docsOnly_score_cap c Hd). lra.
  - intros Hd.
    destruct (suggestedActions_cases c (score (computeScores c)))
      as [[Hd' _] | [(_ & Hs & [E | E])
         | [(_ & Hs & [E | [E | [E | E]]]) | (_ & Hs & [E | E])]]];
      [congruence | | | | | | | |];
      rewrite E; cbn [In];
      (split; [split; [intros H | intros H; apply HR in H] |
               split; [intros H | intros H; apply HG in H]]);
      repeat match goal with
             | H : _ \/ _ |- _ => destruct H
             | H : False |- _ => destruct H
             end;
      try discriminate;
      try (apply HR; lra); try (apply Hmid; lra); try lra;
      try (left; reflexivity); try (right; reflexivity); auto.
Qed.

Lemma actions_follow_verdict_witness :
  let r := analyze [fileB] [] in
  docsOnly (counts r) = true /\ verdictEmoji (scores r) = Green.
Proof.
  cbv zeta.
  assert (H : docsOnly (counts (analyze [fileB] [])) = true).
  { unfold analyze. cbn [counts]. unfold classifyFiles. cbn [docsOnly].
    vm_compute. reflexivity. }
  split; [exact H |].
  exact (proj1 (actions_follow_verdict [fileB] []) H).
Defined.

(** ** Drivers: what the ranking keeps *)

Section RankMoreFacts.

Local Open Scope R_scope.

Lemma StronglySorted_app_cross {A : Type} (R : A -> A -> Prop)
      (l1 l2 : list A) (x y : A) :
  StronglySorted R (l1 ++ l2) -> In x l1 -> In y l2 -> R x y.
Proof.
  induction l1 as [| a l1 IH]; intros HS Hx Hy; [destruct Hx |].
  simpl in HS. apply StronglySorted_inv in HS. destruct HS as [HS HF].
  destruct Hx as [-> | Hx].
  - rewrite Forall_forall in HF. apply HF. apply in_or_app. now right.
  - now apply IH.
Qed.

Lemma sorted_candidates (c : ClassifiedCounts) (s : Scores) :
  StronglySorted descWeak (sortBy byContributionDesc (driverCandidates c s)).
Proof.
  apply sortBy_sorted.
  - intros x y z Hxy Hyz. unfold descWeak in *. lra.
  - apply byContributionDesc_false.
  - apply byContributionDesc_true.
Qed.

Lemma large_is_candidate (c : ClassifiedCounts) (s : Scores) :
  In (mkDriver LargeChangeSize "Large change size" (0.35 * S_size s))
     (driverCandidates c s).
Proof.
  unfold driverCandidates.
  destruct ((cC c >? 0) && (cT c =? 0))%bool; cbn [app In]; auto.
Qed.

End RankMoreFacts.

(** X17. [pickDrivers] returns the three candidates with the highest
    contributions (all of them when there are fewer): each returned
    driver is a generated cause, an omitted cause never contributes more
    than a returned one, and the result is never empty, as the change
    size cause is always generated. *)
Theorem pickDrivers_top (c : ClassifiedCounts) (s : Scores) :
  let out := pickDrivers c s in
  let cand := driverCandidates c s in
  List.length out = Nat.min 3 (List.length cand)
  /\ (1 <= List.length out)%nat
  /\ (forall d, In d out -> In d cand)
  /\ (forall x y, In x out -> In y cand -> ~ In y out ->
                  (contribution y <= contribution x)%R).
Proof.
  cbv zeta. rewrite pickDrivers_sorted_candidates.
  set (S := sortBy byContributionDesc (driverCandidates c s)).
  assert (Hlen : List.length S = List.length (driverCandidates c s))
    by apply sortBy_length.
  assert (Hne : (1 <= List.length (driverCandidates c s))%nat).
  { pose proof (large_is_candidate c s) as H.
    destruct (driverCandidates c s); [destruct H | simpl; lia]. }
  split; [rewrite length_firstn, Hlen; reflexivity |].
  split; [rewrite length_firstn, Hlen; lia |].
  split.
  - intros d Hd. apply (sortBy_In byContributionDesc).
    fold S. rewrite <- (firstn_skipn 3 S). apply in_or_app. now left.
  - intros x y Hx Hy Hny.
    apply (sortBy_In byContributionDesc) in Hy. fold S in Hy.
    rewrite <- (firstn_skipn 3 S) in Hy.
    apply in_app_or in Hy. destruct Hy as [Hy | Hy]; [contradiction |].
    pose proof (sorted_candidates c s) as HS. fold S in HS.
    rewrite <- (firstn_skipn 3 S) in HS.
    exact (StronglySorted_app_cross descWeak _ _ x y HS Hx Hy).
Qed.

Lemma pickDrivers_top_witness :
  let c := classifyFiles [fileManifest] [] in
  let s := computeScores c in
  let x := mkDriver LargeChangeSize "Large change size" 7 in
  In x (pickDrivers c s) /\ In x (driverCandidates c s).
Proof.
  cbv zeta.
  assert (H : In (mkDriver LargeChangeSize "Large change size" 7)
                (pickDrivers (classifyFiles [fileManifest] [])
                   (computeScores (classifyFiles [fileManifest] [])))).
  { change (pickDrivers (classifyFiles [fileManifest] [])
              (computeScores (classifyFiles [fileManifest] [])))
      with (driversTop3 (analyze [fileManifest] [])).
    rewrite manifest_drivers. right. now left. }
  split; [exact H |].
  exact (proj1 (proj2 (proj2 (pickDrivers_top _ _))) _ H).
Defined.

Section DriverMapMoreFacts.

Import DriverMap.
Local Open Scope R_scope.

Lemma DriverKey_eqb_refl (k : DriverKey) : DriverKey_eqb k k = true.
Proof. now apply DriverKey_eqb_eq. Qed.

Lemma dm_get_set_same (m : t) (k : DriverKey) (d : Driver) :
  get (set m k d) k = Some d.
Proof.
  induction m as [| [k' d'] m IH]; simpl.
  - now rewrite DriverKey_eqb_refl.
  - destruct (DriverKey_eqb k k') eqn:E; simpl; rewrite E;
      [reflexivity | exact IH].
Qed.

Lemma dm_get_set_other (m : t) (k k' : DriverKey) (d : Driver) :
  k' <> k -> get (set m k d) k' = get m k'.
Proof.
  intros Hne. induction m as [| [k0 d0] m IH]; simpl.
  - now rewrite DriverKey_eqb_neq.
  - destruct (DriverKey_eqb k k0) eqn:E; simpl.
    + apply DriverKey_eqb_eq in E. subst k0.
      now rewrite (DriverKey_eqb_neq k' k Hne).
    + destruct (DriverKey_eqb k' k0); [reflexivity | exact IH].
Qed.

Lemma dm_keys_set_In (m : t) (k k' : DriverKey) (d : Driver) :
  In k' (map fst (set m k d)) <-> In k' (map fst m) \/ k' = k.
Proof.
  induction m as [| [k0 d0] m IH]; simpl.
  - intuition.
  - destruct (DriverKey_eqb k k0) eqn:E; simpl.
    + apply DriverKey_eqb_eq in E. subst k0. intuition.
    + rewrite IH. intuition.
Qed.

Lemma dm_set_NoDup (m : t) (k : DriverKey) (d : Driver) :
  NoDup (map fst m) -> NoDup (map fst (set m k d)).
Proof.
  induction m as [| [k0 d0] m IH]; simpl; intros Hnd.
  - repeat constructor. intros [].
  - apply NoDup_cons_iff in Hnd. destruct Hnd as [Hk0 Hnd].
    destruct (DriverKey_eqb k k0) eqn:E; simpl.
    + now constructor.
    + constructor; [| now apply IH].
      rewrite dm_keys_set_In. intros [H | H]; [contradiction |].
      subst k0. now rewrite DriverKey_eqb_refl in E.
Qed.

Lemma dm_In_get (m : t) (k : DriverKey) (d : Driver) :
  NoDup (map fst m) -> (In (k, d) m <-> get m k = Some d).
Proof.
  induction m as [| [k0 d0] m IH]; simpl; intros Hnd.
  - split; [intros [] | discriminate].
  - apply NoDup_cons_iff in Hnd. destruct Hnd as [Hk0 Hnd].
    destruct (DriverKey_eqb k k0) eqn:E.
    + apply DriverKey_eqb_eq in E. subst k0. split.
      * intros [H | H]; [congruence |].
        exfalso. apply Hk0. now apply (in_map fst) in H.
      * intros H. left. congruence.
    + rewrite <- (IH Hnd). split.
      * intros [H | H]; [| exact H].
        injection H as -> _. now rewrite DriverKey_eqb_refl in E.
      * now right.
Qed.

Lemma bestInv_step (seen : list Driver) (m : t) (d0 : Driver) :
  bestInv seen m -> bestInv (seen ++ [d0]) (bestByKeyStep m d0).
Proof.
  intros (I1 & I2 & I3). unfold bestByKeyStep.
  destruct (get m (key d0)) as [e |] eqn:Eg;
    [destruct (Rgtb (contribution d0) (contribution e)) eqn:Egt |].
  - (* replaced by a strictly better one *)
    unfold Rgtb in Egt.
    destruct (Rlt_dec (contribution e) (contribution d0)) as [Hlt | Hlt];
      [| discriminate Egt].
    split; [now apply dm_set_NoDup |]. split.
    + intros k d Hg. destruct (DriverKey_eqb k (key d0)) eqn:E.
      * apply DriverKey_eqb_eq in E. subst k.
        rewrite dm_get_set_same in Hg. injection Hg as <-.
        split; [reflexivity | apply in_or_app; right; now left].
      * rewrite dm_get_set_other in Hg
          by (intros ->; now rewrite DriverKey_eqb_refl in E).
        destruct (I2 k d Hg) as [Hk Hin].
        split; [exact Hk | apply in_or_app; now left].
    + intros d' Hd'. apply in_app_or in Hd'.
      destruct (DriverKey_eqb (key d') (key d0)) eqn:E.
      * apply DriverKey_eqb_eq in E. rewrite E, dm_get_set_same.
        exists d0. split; [reflexivity |].
        destruct Hd' as [Hd' | [<- | []]]; [| lra].
        destruct (I3 d' Hd') as (d & Hg & Hle).
        rewrite E, Eg in Hg. injection Hg as <-. lra.
      * destruct Hd' as [Hd' | [<- | []]];
          [| now rewrite DriverKey_eqb_refl in E].
        rewrite dm_get_set_other
          by (intros Heq; rewrite Heq, DriverKey_eqb_refl in E; discriminate).
        exact (I3 d' Hd').
  - (* kept: the new one is not better *)
    unfold Rgtb in Egt.
    destruct (Rlt_dec (contribution e) (contribution d0)) as [Hlt | Hlt];
      [discriminate Egt |].
    split; [exact I1 |]. split.
    + intros k d Hg. destruct (I2 k d Hg) as [Hk Hin].
      split; [exact Hk | apply in_or_app; now left].
    + intros d' Hd'. apply in_app_or in Hd'.
      destruct Hd' as [Hd' | [<- | []]]; [exact (I3 d' Hd') |].
      exists e. split; [exact Eg | lra].
  - (* a new key *)
    split; [now apply dm_set_NoDup |]. split.
    + intros k d Hg. destruct (DriverKey_eqb k (key d0)) eqn:E.
      * apply DriverKey_eqb_eq in E. subst k.
        rewrite dm_get_set_same in Hg. injection Hg as <-.
        split; [reflexivity | apply in_or_app; right; now left].
      * rewrite dm_get_set_other in Hg
          by (intros ->; now rewrite DriverKey_eqb_refl in E).
        destruct (I2 k d Hg) as [Hk Hin].
        split; [exact Hk | apply in_or_app; now left].
    + intros d' Hd'. apply in_app_or in Hd'.
      destruct (DriverKey_eqb (key d') (key d0)) eqn:E.
      * apply DriverKey_eqb_eq in E. rewrite E, dm_get_set_same.
        exists d0. split; [reflexivity |].
        destruct Hd' as [Hd' | [<- | []]]; [| lra].
        destruct (I3 d' Hd') as (d & Hg & Hle).
        rewrite E, Eg in Hg. discriminate Hg.
      * destruct Hd' as [Hd' | [<- | []]];
          [| now rewrite DriverKey_eqb_refl in E].
        rewrite dm_get_set_other
          by (intros Heq; rewrite Heq, DriverKey_eqb_refl in E; discriminate).
        exact (I3 d' Hd').
Qed.

Lemma bestInv_fold (l : list Driver) :
  forall seen m, bestInv seen m ->
                 bestInv (seen ++ l) (fold_left bestByKeyStep l m).
Proof.
  induction l as [| d0 l IH]; intros seen m Hinv; simpl.
  - now rewrite app_nil_r.
  - replace (seen ++ d0 :: l) with ((seen ++ [d0]) ++ l)
      by (now rewrite <- app_assoc).
    apply IH. now apply bestInv_step.
Qed.

Lemma bestByKey_inv (l : list Driver) : bestInv l (bestByKey l).
Proof.
  unfold bestByKey. apply (bestInv_fold l [] []).
  split; [constructor |]. split.
  - intros k d H. discriminate H.
  - intros d' [].
Qed.

End DriverMapMoreFacts.

(** X18. The de-duplication loop of [pickDrivers], on any list of
    drivers: the drivers it keeps have pairwise distinct keys, each of
    them comes from the list, and every driver of the list is
    represented by a kept driver of the same key that contributes at
    least as much. *)
Theorem bestByKey_keeps_best (l : list Driver) :
  let kept := DriverMap.values (bestByKey l) in
  NoDup (map key kept)
  /\ (forall d, In d kept -> In d l)
  /\ (forall d', In d' l ->
        exists d, In d kept /\ key d = key d'
                  /\ (contribution d' <= contribution d)%R).
Proof.
  cbv zeta. destruct (bestByKey_inv l) as (I1 & I2 & I3).
  set (m := bestByKey l) in *. unfold DriverMap.values.
  assert (Hkeys : map key (map snd m) = map fst m).
  { rewrite map_map. apply map_ext_in. intros [k d] Hin. simpl.
    apply (dm_In_get m k d I1) in Hin. now destruct (I2 k d Hin). }
  split; [now rewrite Hkeys |]. split.
  - intros d Hd. apply in_map_iff in Hd. destruct Hd as ([k d'] & <- & Hin).
    simpl. apply (dm_In_get m k d' I1) in Hin. now destruct (I2 k d' Hin).
  - intros d' Hd'. destruct (I3 d' Hd') as (d & Hg & Hle).
    exists d. split; [| split; [now destruct (I2 _ d Hg) | exact Hle]].
    apply in_map_iff. exists (key d', d). split; [reflexivity |].
    now apply (dm_In_get m (key d') d I1).
Qed.

Lemma bestByKey_keeps_best_witness :
  let a := mkDriver DependencyChurn "first" 7 in
  let b := mkDriver DependencyChurn "second" 9 in
  In a [a; b]
  /\ exists d, In d (DriverMap.values (bestByKey [a; b]))
               /\ key d = key a /\ (contribution a <= contribution d)%R.
Proof.
  cbv zeta.
  assert (H : In (mkDriver DependencyChurn "first" 7)
                [mkDriver DependencyChurn "first" 7;
                 mkDriver DependencyChurn "second" 9]) by now left.
  split; [exact H |].
  exact (proj2 (proj2 (bestByKey_keeps_best _)) _ H).
Defined.

Section CoreDriverFacts.

Local Open Scope R_scope.

Lemma quality_le_60 (files : list PRFile) (hs : JSSet.t) :
  S_quality (computeScores (classifyFiles files hs)) <= 60.
Proof.
  destruct (testCoverage_classify files hs) as (Htc & HT & HC).
  set (c := classifyFiles files hs) in *.
  unfold computeScores. cbn [S_quality]. rewrite Htc.
  assert (Hm : 1 <= IZR (Z.max 1 (cC c))) by (apply IZR_le; lia).
  assert (HT' : 0 <= IZR (cT c)) by now apply IZR_le.
  assert (Htc0 : 0 <= IZR (cT c) / IZR (Z.max 1 (cC c))).
  { apply Rmult_le_pos; [exact HT' |].
    apply Rlt_le, Rinv_0_lt_compat. lra. }
  assert (Hmin : 0 <= Rmin 1 (IZR (cT c) / IZR (Z.max 1 (cC c))) <= 1).
  { split; [apply Rmin_glb; lra | apply Rmin_l]. }
  rewrite clamp_id by lra. lra.
Qed.

Lemma Before_split {A : Type} (x y : A) (pre post : list A) :
  In x pre -> Before x y (pre ++ y :: post).
Proof.
  induction pre as [| a pre IH]; intros Hx; [destruct Hx |].
  destruct Hx as [-> | Hx]; simpl.
  - apply Before_here. apply in_or_app. right. now left.
  - apply Before_later. now apply IH.
Qed.

(** With untested core changes the candidates start with that cause;
    of the others only change size and dependency churn can outweigh it. *)
Lemma candidates_untested_core (files : list PRFile) (hs : JSSet.t) :
  let c := classifyFiles files hs in
  let d0 := mkDriver CoreChangedWithoutTests
                     "Core code modified without tests" (12 + 0.15 * 100) in
  (0 < cC c)%Z -> cT c = 0%Z ->
  exists rest,
    driverCandidates c (computeScores c) = d0 :: rest
    /\ forall y, In y rest ->
         key y <> CoreChangedWithoutTests
         /\ (contribution d0 < contribution y ->
             key y = LargeChangeSize \/ key y = DependencyChurn).
Proof.
  cbv zeta. intros HC HT.
  pose proof (quality_le_60 files hs) as Hq.
  set (c := classifyFiles files hs) in *.
  destruct (subscores_bounds c)
    as (Hsize & Hdeps & Hinfra & Hhot & Hqual & _).
  unfold driverCandidates.
  replace (cC c >? 0)%Z with true by (symmetry; apply Z.gtb_lt; lia).
  replace (cT c =? 0)%Z with true by (symmetry; apply Z.eqb_eq; exact HT).
  cbn [andb app].
  eexists. split; [reflexivity |].
  intros y Hy.
  destruct (Rltb (testCoverage c) 1);
    destruct (cD c >? 0)%Z; destruct (cI c >? 0)%Z;
    destruct (cH c >? 0)%Z; destruct (cH c >=? 2)%Z;
    cbn [app In andb] in Hy;
    repeat match goal with
           | H : _ \/ _ |- _ => destruct H
           | H : False |- _ => destruct H
           end;
    subst y; cbn [key contribution];
    (split; [discriminate |]); intros Hlt;
    try (left; reflexivity); try (right; reflexivity);
    exfalso; lra.
Qed.

End CoreDriverFacts.

(** X19. In an analysis, whenever core files changed and no test file
    did, "Core changed without tests" (contribution 27) is among the
    drivers returned. *)
Theorem untested_core_is_shown (files : list PRFile) (hotspotSet : JSSet.t) :
  let r := analyze files hotspotSet in
  0 < cC (counts r) -> cT (counts r) = 0 ->
  exists d, In d (driversTop3 r)
            /\ key d = CoreChangedWithoutTests
            /\ contribution d = 27%R.
Proof.
  cbv zeta. unfold analyze. cbn [counts driversTop3]. intros HC HT.
  destruct (candidates_untested_core files hotspotSet HC HT)
    as (rest & Hcand & Hrest).
  set (c := classifyFiles files hotspotSet) in *.
  set (d0 := mkDriver CoreChangedWithoutTests
                      "Core code modified without tests" (12 + 0.15 * 100)%R)
    in *.
  exists d0. split; [| split; [reflexivity | cbn [d0 contribution]; lra]].
  rewrite pickDrivers_sorted_candidates.
  set (S := sortBy byContributionDesc (driverCandidates c (computeScores c))).
  assert (Hin : In d0 S).
  { apply sortBy_In. rewrite Hcand. now left. }
  destruct (in_split d0 S Hin) as (pre & post & HS).
  assert (Hkeys : NoDup (map key S)).
  { apply (Permutation_NoDup
             (Permutation_map key (sortBy_perm byContributionDesc _))).
    apply driverCandidates_keys. }
  assert (Hpre : incl (map key pre) [LargeChangeSize; DependencyChurn]).
  { intros k Hk. apply in_map_iff in Hk. destruct Hk as (y & <- & Hy).
    assert (HB : Before y d0 S) by (rewrite HS; now apply Before_split).
    assert (HyS : In y (driverCandidates c (computeScores c))).
    { apply (sortBy_In byContributionDesc). fold S. rewrite HS.
      apply in_or_app. now left. }
    destruct (sortBy_stable _ _ _ _ HB) as [Hb | Ha].
    - exfalso. rewrite Hcand in Hb.
      assert (Hd0 : In d0 rest).
      { inversion Hb as [l Hy0 | z l Hb']; subst;
          [exact Hy0 | now apply Before_In in Hb']. }
      now destruct (Hrest d0 Hd0) as [Hk _].
    - unfold byContributionDesc, Rgtb in Ha.
      destruct (Rlt_dec 0 (contribution y - contribution d0)) as [Hlt | Hlt];
        [| discriminate Ha].
      rewrite Hcand in HyS. destruct HyS as [<- | HyS]; [lra |].
      destruct (Hrest y HyS) as [_ Hk].
      destruct (Hk ltac:(lra)) as [-> | ->]; simpl; auto. }
  assert (Hlen : (List.length pre <= 2)%nat).
  { rewrite <- (length_map key pre).
    apply (NoDup_incl_length (l' := [LargeChangeSize; DependencyChurn]));
      [| exact Hpre].
    rewrite HS, map_app in Hkeys. now apply NoDup_app_remove_r in Hkeys. }
  rewrite HS, firstn_app. apply in_or_app. right.
  destruct (3 - List.length pre)%nat eqn:E; [lia |]. now left.
Qed.

Lemma untested_core_is_shown_witness :
  let r := analyze [fileA] [] in
  0 < cC (counts r) /\ cT (counts r) = 0
  /\ exists d, In d (driversTop3 r)
               /\ key d = CoreChangedWithoutTests
               /\ contribution d = 27%R.
Proof.
  cbv zeta.
  assert (HC : 0 < cC (counts (analyze [fileA] []))).
  { unfold analyze. cbn [counts]. unfold classifyFiles. cbn [cC].
    vm_compute. reflexivity. }
  assert (HT : cT (counts (analyze [fileA] [])) = 0).
  { unfold analyze. cbn [counts]. unfold classifyFiles. cbn [cT].
    vm_compute. reflexivity. }
  split; [exact HC |]. split; [exact HT |].
  exact (untested_core_is_shown [fileA] [] HC HT).
Defined.

(** ** median: order and bounds *)

Section MedianMoreFacts.

Local Open Scope R_scope.

Lemma sorted_perm_unique (l1 : list R) :
  forall l2, StronglySorted Rle l1 -> StronglySorted Rle l2 ->
             Permutation l1 l2 -> l1 = l2.
Proof.
  induction l1 as [| a l1 IH]; intros l2 H1 H2 HP.
  - apply Permutation_nil in HP. now subst.
  - destruct l2 as [| b l2];
      [apply Permutation_sym, Permutation_nil in HP; discriminate HP |].
    apply StronglySorted_inv in H1. destruct H1 as [H1 HF1].
    apply StronglySorted_inv in H2. destruct H2 as [H2 HF2].
    rewrite Forall_forall in HF1, HF2.
    assert (Hab : a = b).
    { assert (Ha : In a (b :: l2))
        by (apply (Permutation_in _ HP); now left).
      assert (Hb : In b (a :: l1))
        by (apply (Permutation_in _ (Permutation_sym HP)); now left).
      destruct Ha as [Ha | Ha]; [now subst |].
      destruct Hb as [Hb | Hb]; [now subst |].
      apply Rle_antisym; [now apply HF1 | now apply HF2]. }
    subst b. f_equal. apply IH; [exact H1 | exact H2 |].
    now apply Permutation_cons_inv in HP.
Qed.

Lemma sortBy_byValueAsc_perm_eq (l l' : list R) :
  Permutation l l' -> sortBy byValueAsc l = sortBy byValueAsc l'.
Proof.
  intros HP. apply sorted_perm_unique; try apply sortBy_byValueAsc_sorted.
  rewrite <- (sortBy_perm byValueAsc l), <- (sortBy_perm byValueAsc l').
  exact HP.
Qed.

Lemma median_permutation_eq (l l' : list R) :
  Permutation l l' -> median l = median l'.
Proof.
  intros HP. unfold median.
  rewrite (sortBy_byValueAsc_perm_eq l l' HP), (Permutation_length HP).
  reflexivity.
Qed.

Lemma half_lt (n : nat) : (0 < n)%nat -> (n / 2 < n)%nat.
Proof. intros H. apply Nat.div_lt; lia. Qed.

(** The median is the mean of two entries of the list (twice the same
    one when the length is odd). *)
Lemma median_two_entries (nums : list R) :
  nums <> [] ->
  exists x y, In x nums /\ In y nums /\ median nums = Some ((x + y) / 2).
Proof.
  intros Hne.
  assert (Hlen : (0 < List.length nums)%nat)
    by (destruct nums; [contradiction | simpl; lia]).
  pose proof (half_lt _ Hlen) as Hmid.
  set (a := sortBy byValueAsc nums).
  assert (Hla : List.length a = List.length nums) by apply sortBy_length.
  assert (Hin : forall i, (i < List.length nums)%nat -> In (nth i a 0) nums).
  { intros i Hi. apply (sortBy_In byValueAsc). apply nth_In.
    fold a. lia. }
  destruct (Nat.mod_bound_pos (List.length nums) 2 ltac:(lia) ltac:(lia))
    as [_ Hmod].
  destruct (List.length nums mod 2)%nat as [| [| k]] eqn:E; [| | lia].
  - exists (nth (List.length nums / 2 - 1) a 0), (nth (List.length nums / 2) a 0).
    split; [apply Hin; lia |]. split; [apply Hin; lia |].
    now apply median_even.
  - exists (nth (List.length nums / 2) a 0), (nth (List.length nums / 2) a 0).
    split; [apply Hin; lia |]. split; [apply Hin; lia |].
    rewrite median_odd by exact E. fold a. f_equal. lra.
Qed.

Lemma median_None_iff (nums : list R) : median nums = None <-> nums = [].
Proof.
  split; [| intros ->; reflexivity].
  intros H. destruct nums as [| x l]; [reflexivity |].
  destruct (median_two_entries (x :: l) ltac:(discriminate))
    as (a & b & _ & _ & E).
  rewrite E in H. discriminate H.
Qed.

Lemma median_in_bounds (nums : list R) (lo hi m : R) :
  (forall x, In x nums -> lo <= x <= hi) ->
  median nums = Some m -> lo <= m <= hi.
Proof.
  intros Hb Hm.
  destruct nums as [| x0 l]; [discriminate Hm |].
  destruct (median_two_entries (x0 :: l) ltac:(discriminate))
    as (a & b & Ha & Hb' & E).
  rewrite E in Hm. injection Hm as <-.
  pose proof (Hb a Ha). pose proof (Hb b Hb'). lra.
Qed.

End MedianMoreFacts.

(** X20. [median] does not depend on the order of its input: two lists
    that are permutations of each other have the same median. *)
Theorem median_permutation (l l' : list R) :
  Permutation l l' -> median l = median l'.
Proof.
  intros HP. unfold median.
  assert (Hsort : sortBy byValueAsc l = sortBy byValueAsc l').
  { apply sorted_perm_unique; try apply sortBy_byValueAsc_sorted.
    rewrite <- (sortBy_perm byValueAsc l), <- (sortBy_perm byValueAsc l').
    exact HP. }
  rewrite Hsort, (Permutation_length HP). reflexivity.
Qed.

Lemma median_permutation_witness :
  Permutation [3%R; 1%R; 2%R] [1%R; 2%R; 3%R]
  /\ median [3%R; 1%R; 2%R] = median [1%R; 2%R; 3%R].
Proof.
  assert (H : Permutation [3%R; 1%R; 2%R] [1%R; 2%R; 3%R]).
  { change [1%R; 2%R; 3%R] with ([1%R; 2%R] ++ [3%R]).
    apply Permutation_cons_app. rewrite app_nil_r. apply Permutation_refl. }
  split; [exact H | exact (median_permutation _ _ H)].
Defined.

(** X21. [median] is absent exactly for the empty list; otherwise it
    lies between any bounds that hold for all the values, and for an odd
    number of values it is one of them. *)
Theorem median_bounds (nums : list R) :
  (median nums = None <-> nums = [])
  /\ (forall lo hi m : R,
         (forall x, In x nums -> (lo <= x <= hi)%R) ->
         median nums = Some m -> (lo <= m <= hi)%R)
  /\ ((List.length nums mod 2 = 1)%nat ->
      exists m, median nums = Some m /\ In m nums).
Proof.
  split; [apply median_None_iff |]. split.
  - intros lo hi m. apply median_in_bounds.
  - intros Hodd. eexists. split; [now apply median_odd |].
    apply (sortBy_In byValueAsc). apply nth_In.
    rewrite sortBy_length. apply half_lt.
    destruct nums; [discriminate Hodd | simpl; lia].
Qed.

Lemma median_bounds_witness :
  (forall x, In x [10%R; 40%R; 20%R] -> (0 <= x <= 100)%R)
  /\ median [10%R; 40%R; 20%R] = Some 20%R
  /\ (0 <= 20 <= 100)%R.
Proof.
  assert (Hb : forall x, In x [10%R; 40%R; 20%R] -> (0 <= x <= 100)%R).
  { intros x [<- | [<- | [<- | []]]]; lra. }
  assert (Hm : median [10%R; 40%R; 20%R] = Some 20%R).
  { rewrite median_odd by reflexivity.
    cbn [sortBy insertSorted]. unfold byValueAsc.
    rewrite (Rgtb_true (40 - 20) 0) by lra. cbn [insertSorted].
    rewrite (Rgtb_false (10 - 20) 0) by lra.
    reflexivity. }
  split; [exact Hb |]. split; [exact Hm |].
  exact (proj1 (proj2 (median_bounds _)) 0%R 100%R 20%R Hb Hm).
Defined.

(** ** The baseline: median, hotspots and the order of the window *)

Section BaselineMoreFacts.

Lemma fold_baselineStep_snd (w : list (list PRFile)) :
  forall st, snd (fold_left baselineStep w st) = snd st ++ historicalScores w.
Proof.
  induction w as [| files w IH]; intros st; simpl.
  - now rewrite app_nil_r.
  - rewrite IH. cbn [baselineStep snd]. now rewrite <- app_assoc.
Qed.

Lemma baselineMedianScore_computeBaseline (n : nat) (merged : list (list PRFile)) :
  baselineMedianScore (computeBaseline n merged)
  = median (historicalScores (firstn n merged)).
Proof.
  unfold computeBaseline. destruct merged as [| m ms].
  - rewrite firstn_nil. reflexivity.
  - change (List.length (m :: ms) =? 0)%nat with false. cbv iota.
    pose proof (fold_baselineStep_snd (firstn n (m :: ms)) ([], [])) as Hs.
    destruct (fold_left baselineStep (firstn n (m :: ms)) ([], []))
      as [freq sc].
    cbn [snd app] in Hs. cbn [baselineMedianScore]. now rewrite Hs.
Qed.

Lemma historicalScores_range (w : list (list PRFile)) (x : R) :
  In x (historicalScores w) -> (0 <= x <= 100)%R.
Proof.
  unfold historicalScores. intros H. apply in_map_iff in H.
  destruct H as (files & <- & _). unfold analyze. cbn [scores].
  apply score_range.
Qed.

Lemma occurrences_app (p : string) (l1 l2 : list PRFile) :
  occurrences p (l1 ++ l2) = occurrences p l1 + occurrences p l2.
Proof. unfold occurrences. rewrite filter_app, length_app. lia. Qed.

Lemma freqOf_perm (w w' : list (list PRFile)) (p : string) :
  Permutation w w' -> freqOf w p = freqOf w' p.
Proof.
  unfold freqOf.
  induction 1 as [| x l l' _ IH | x y l | l l' l'' _ IH1 _ IH2]; simpl.
  - reflexivity.
  - rewrite !occurrences_app. lia.
  - rewrite !occurrences_app. lia.
  - lia.
Qed.

Lemma freqTable_keys (w : list (list PRFile)) (p : string) :
  In p (map fst (freqTable w)) <-> 0 < freqOf w p.
Proof.
  rewrite in_map_iff. split.
  - intros ([q c] & Hq & Hin). simpl in Hq. subst q.
    apply freqTable_In in Hin. lia.
  - intros H. exists (p, freqOf w p). split; [reflexivity |].
    apply freqTable_In. split; [reflexivity | exact H].
Qed.

Lemma freqTable_length_perm (w w' : list (list PRFile)) :
  Permutation w w' ->
  List.length (freqTable w) = List.length (freqTable w').
Proof.
  intros HP. rewrite <- (length_map fst (freqTable w)).
  rewrite <- (length_map fst (freqTable w')).
  apply Permutation_length.
  apply NoDup_Permutation; try apply freqTable_NoDup.
  intros p. rewrite !freqTable_keys. now rewrite (freqOf_perm w w' p HP).
Qed.

Lemma entries_keys (w : list (list PRFile)) (p : string) :
  In p (map fst (sortBy byCountDesc (freqTable w))) <-> 0 < freqOf w p.
Proof.
  rewrite <- freqTable_keys. split; apply Permutation_in;
    [apply Permutation_sym |]; apply Permutation_map, sortBy_perm.
Qed.

Lemma entries_sorted (w : list (list PRFile)) :
  StronglySorted descCount (sortBy byCountDesc (freqTable w)).
Proof.
  apply sortBy_sorted.
  - intros x y z. unfold descCount. lia.
  - apply byCountDesc_false.
  - apply byCountDesc_true.
Qed.

End BaselineMoreFacts.

(** X22. The baseline median is absent exactly when no change was
    processed (nothing merged, or a window size of 0); when present it
    lies in [0,100]. *)
Theorem baseline_median_range (n : nat) (merged : list (list PRFile)) :
  (baselineMedianScore (computeBaseline n merged) = None
   <-> firstn n merged = [])
  /\ (forall m : R,
         baselineMedianScore (computeBaseline n merged) = Some m ->
         (0 <= m <= 100)%R).
Proof.
  rewrite baselineMedianScore_computeBaseline. split.
  - rewrite median_None_iff. unfold historicalScores. split.
    + intros H. now apply map_eq_nil in H.
    + intros ->. reflexivity.
  - intros m. apply median_in_bounds. apply historicalScores_range.
Qed.

Lemma baseline_median_range_witness :
  baselineMedianScore (computeBaseline 20 [[fileB]]) = Some 19%R
  /\ (0 <= 19 <= 100)%R.
Proof.
  assert (H : baselineMedianScore (computeBaseline 20 [[fileB]]) = Some 19%R).
  { rewrite baselineMedianScore_computeBaseline.
    cbn [firstn historicalScores map].
    change (score (scores (analyze [fileB] [])))
      with (score (computeScores (classifyFiles [fileB] []))).
    rewrite scenario_B_score. reflexivity. }
  split; [exact H |].
  exact (proj2 (baseline_median_range 20 [[fileB]]) 19%R H).
Defined.

(** X23. Every hotspot is a path some processed change touched; there
    are at least min(10, d) and at most d hotspots, d being the number of
    distinct touched paths; without a processed change there is none. *)
Theorem hotspots_are_touched (n : nat) (merged : list (list PRFile)) :
  let window := firstn n merged in
  let hot := hotspotFiles (computeBaseline n merged) in
  let d := List.length (freqTable window) in
  (forall p, In p hot -> 0 < freqOf window p)
  /\ (Nat.min 10 d <= List.length hot <= d)%nat
  /\ (window = [] -> hot = []).
Proof.
  cbv zeta. rewrite hotspotFiles_computeBaseline.
  set (w := firstn n merged).
  set (entries := sortBy byCountDesc (freqTable w)).
  assert (Hsub : forall p, In p (hotspotsOf (freqTable w)) -> 0 < freqOf w p).
  { intros p Hp. apply hotspotsOf_In in Hp. destruct Hp as [Hp | Hp]; [| lia].
    unfold top10Of in Hp. apply in_map_iff in Hp.
    destruct Hp as ([q c] & Hq & Hin). simpl in Hq. subst q.
    assert (Hin' : In (p, c) entries).
    { rewrite <- (firstn_skipn 10 entries). apply in_or_app. now left. }
    apply entries_In in Hin'. lia. }
  split; [exact Hsub |]. split; [split |].
  - (* the top 10 are distinct hotspots *)
    assert (Hnd : NoDup (top10Of entries)).
    { unfold top10Of. rewrite <- firstn_map. apply NoDup_firstn.
      apply entries_NoDup. }
    assert (Hincl : incl (top10Of entries) (hotspotsOf (freqTable w))).
    { intros p Hp. apply hotspotsOf_In. now left. }
    pose proof (NoDup_incl_length Hnd Hincl) as Hle.
    unfold top10Of in Hle at 1.
    rewrite length_map, length_firstn in Hle.
    unfold entries in Hle. rewrite sortBy_length in Hle. exact Hle.
  - rewrite <- (length_map fst (freqTable w)).
    apply NoDup_incl_length; [apply of_list_NoDup |].
    intros p Hp. apply freqTable_keys. now apply Hsub.
  - intros ->. reflexivity.
Qed.

Lemma hotspots_are_touched_witness :
  In "infra/x.yml"%string (hotspotFiles (computeBaseline 20 windowC))
  /\ 0 < freqOf (firstn 20 windowC) "infra/x.yml".
Proof.
  assert (H : In "infra/x.yml"%string
                (hotspotFiles (computeBaseline 20 windowC))).
  { rewrite hotspotFiles_computeBaseline, freqTable_touch.
    vm_compute. right. now left. }
  split; [exact H |].
  exact (proj1 (hotspots_are_touched 20 windowC) _ H).
Defined.

(** X24. The hotspot set is closed upwards in frequency: a path touched
    more often than a hotspot is a hotspot too. *)
Theorem hotspots_upward_closed (n : nat) (merged : list (list PRFile))
        (p q : string) :
  let window := firstn n merged in
  let hot := hotspotFiles (computeBaseline n merged) in
  In p hot -> freqOf window p < freqOf window q -> In q hot.
Proof.
  cbv zeta. rewrite hotspotFiles_computeBaseline.
  set (w := firstn n merged).
  set (entries := sortBy byCountDesc (freqTable w)).
  intros Hp Hlt. apply hotspotsOf_In. apply hotspotsOf_In in Hp.
  destruct Hp as [Hp | Hp]; [left | right; lia].
  fold entries in Hp |- *.
  unfold top10Of in *. apply in_map_iff in Hp.
  destruct Hp as ([p' c] & Hp' & Hin). simpl in Hp'. subst p'.
  assert (Hpc : c = freqOf w p /\ 0 < c).
  { apply entries_In. fold entries.
    rewrite <- (firstn_skipn 10 entries). apply in_or_app. now left. }
  destruct Hpc as [-> Hpos].
  assert (Hq : In (q, freqOf w q) entries)
    by (apply entries_In; split; [reflexivity | lia]).
  rewrite <- (firstn_skipn 10 entries) in Hq.
  apply in_app_or in Hq. destruct Hq as [Hq | Hq].
  - apply in_map_iff. exists (q, freqOf w q). split; [reflexivity | exact Hq].
  - exfalso.
    pose proof (entries_sorted w) as HS. fold entries in HS.
    rewrite <- (firstn_skipn 10 entries) in HS.
    pose proof (StronglySorted_app_cross descCount _ _ _ _ HS Hin Hq) as Hd.
    unfold descCount in Hd. simpl in Hd. lia.
Qed.

Lemma hotspots_upward_closed_witness :
  In "infra/x.yml"%string (hotspotFiles (computeBaseline 20 windowC))
  /\ freqOf (firstn 20 windowC) "infra/x.yml"
     < freqOf (firstn 20 windowC) "src/a.ext"
  /\ In "src/a.ext"%string (hotspotFiles (computeBaseline 20 windowC)).
Proof.
  assert (H : In "infra/x.yml"%string
                (hotspotFiles (computeBaseline 20 windowC))).
  { rewrite hotspotFiles_computeBaseline, freqTable_touch.
    vm_compute. right. now left. }
  assert (Hlt : freqOf (firstn 20 windowC) "infra/x.yml"
                < freqOf (firstn 20 windowC) "src/a.ext")
    by (vm_compute; reflexivity).
  split; [exact H |]. split; [exact Hlt |].
  exact (hotspots_upward_closed 20 windowC _ _ H Hlt).
Defined.

(** X25. The order of the processed changes does not matter for the
    median and the frequencies, nor, when at most 10 distinct paths were
    touched, for the hotspot set. *)
Theorem baseline_order_independent
        (n : nat) (merged merged' : list (list PRFile)) :
  Permutation merged merged' -> (List.length merged <= n)%nat ->
  baselineMedianScore (computeBaseline n merged)
  = baselineMedianScore (computeBaseline n merged')
  /\ (forall p, freqOf merged p = freqOf merged' p)
  /\ ((List.length (freqTable merged) <= 10)%nat ->
      forall p, In p (hotspotFiles (computeBaseline n merged))
                <-> In p (hotspotFiles (computeBaseline n merged'))).
Proof.
  intros HP Hlen.
  assert (Hlen' : (List.length merged' <= n)%nat)
    by (now rewrite <- (Permutation_length HP)).
  rewrite !baselineMedianScore_computeBaseline, !hotspotFiles_computeBaseline.
  rewrite (firstn_all2 merged Hlen), (firstn_all2 merged' Hlen').
  split; [| split].
  - apply median_permutation_eq. unfold historicalScores.
    now apply Permutation_map.
  - intros p. now apply freqOf_perm.
  - intros Hd p.
    assert (Hd' : (List.length (freqTable merged') <= 10)%nat)
      by (now rewrite <- (freqTable_length_perm merged merged' HP)).
    rewrite (hotspotsOf_few merged p) by (now rewrite sortBy_length).
    rewrite (hotspotsOf_few merged' p) by (now rewrite sortBy_length).
    now rewrite (freqOf_perm merged merged' p HP).
Qed.

Lemma baseline_order_independent_witness :
  Permutation [[fileHistA]; [fileHistX]] [[fileHistX]; [fileHistA]]
  /\ (List.length [[fileHistA]; [fileHistX]] <= 20)%nat
  /\ baselineMedianScore (computeBaseline 20 [[fileHistA]; [fileHistX]])
     = baselineMedianScore (computeBaseline 20 [[fileHistX]; [fileHistA]]).
Proof.
  assert (HP : Permutation [[fileHistA]; [fileHistX]]
                           [[fileHistX]; [fileHistA]]) by apply perm_swap.
  assert (Hlen : (List.length [[fileHistA]; [fileHistX]] <= 20)%nat)
    by (simpl; lia).
  split; [exact HP |]. split; [exact Hlen |].
  exact (proj1 (baseline_order_independent 20 _ _ HP Hlen)).
Defined.

(** ** The paginated listings *)

Section PaginationFacts.

Lemma pagesUpTo_S {A : Type} (fetch : nat -> list A) (k : nat) :
  pagesUpTo fetch (S k) = pagesUpTo fetch k ++ fetch (S k).
Proof.
  unfold pagesUpTo. rewrite seq_S, map_app, concat_app. simpl.
  now rewrite app_nil_r.
Qed.

Lemma listPullFilesLoop_short (fetch : nat -> list RawFile) (i : nat) :
  forall fuel page out,
    (forall j, (page <= j < page + i)%nat ->
               (100 <= List.length (fetch j))%nat) ->
    (List.length (fetch (page + i)) < 100)%nat ->
    (i < fuel)%nat ->
    listPullFilesLoop fetch fuel page out
    = Some (out ++ map toPRFile (List.concat (map fetch (seq page (S i))))).
Proof.
  induction i as [| i IH]; intros fuel page out Hfull Hshort Hfuel;
    (destruct fuel as [| fuel]; [lia |]); cbn [listPullFilesLoop].
  - rewrite Nat.add_0_r in Hshort.
    replace (List.length (fetch page) <? 100)%nat with true
      by (symmetry; now apply Nat.ltb_lt).
    cbn [seq map List.concat]. now rewrite app_nil_r.
  - replace (List.length (fetch page) <? 100)%nat with false
      by (symmetry; apply Nat.ltb_ge; apply Hfull; lia).
    rewrite (IH fuel (page + 1)%nat).
    + replace (page + 1)%nat with (S page) by lia.
      cbn [seq map List.concat]. f_equal. rewrite <- app_assoc. f_equal.
      now rewrite <- map_app.
    + intros j Hj. apply Hfull. lia.
    + replace (page + 1 + i)%nat with (page + S i)%nat by lia. exact Hshort.
    + lia.
Qed.

Lemma mergedOf_app (a b : list RawPull) :
  mergedOf (a ++ b) = mergedOf a ++ mergedOf b.
Proof. unfold mergedOf. now rewrite filter_app, map_app. Qed.

Lemma firstn_short {A : Type} (n : nat) (l : list A) :
  (List.length (firstn n l) < n)%nat -> firstn n l = l.
Proof.
  intros H. rewrite length_firstn in H. apply firstn_all2. lia.
Qed.

Lemma scanPulls_firstn (n : nat) (items : list RawPull) :
  forall acc, (List.length acc < n)%nat ->
              scanPulls n items acc = firstn n (acc ++ mergedOf items).
Proof.
  induction items as [| pr rest IH]; intros acc Hlt; cbn [scanPulls].
  - unfold mergedOf. simpl. rewrite app_nil_r.
    symmetry. apply firstn_all2. lia.
  - unfold mergedOf. cbn [filter]. destruct (pr_merged pr); cbn [map].
    + fold (mergedOf rest).
      destruct (Nat.leb_spec n (List.length (acc ++ [pr_number pr])))
        as [Hge | Hlt'].
      * rewrite length_app in Hge. simpl in Hge.
        replace (acc ++ pr_number pr :: mergedOf rest)
          with ((acc ++ [pr_number pr]) ++ mergedOf rest)
          by (now rewrite <- app_assoc).
        rewrite firstn_app.
        replace (n - List.length (acc ++ [pr_number pr]))%nat with 0%nat
          by (rewrite length_app; simpl; lia).
        rewrite firstn_all2 by (rewrite length_app; simpl; lia).
        cbn [firstn]. now rewrite app_nil_r.
      * rewrite IH by exact Hlt'. now rewrite <- app_assoc.
    + fold (mergedOf rest).
      replace (n <=? List.length acc)%nat with false
        by (symmetry; apply Nat.leb_gt; exact Hlt).
      now apply IH.
Qed.

Lemma listMergedPullsLoop_prefix (fetch : nat -> list RawPull) (n : nat) :
  forall fuel q acc r,
    acc = firstn n (mergedOf (pagesUpTo fetch q)) ->
    listMergedPullsLoop fetch n fuel (q + 1) acc = Some r ->
    exists k, r = firstn n (mergedOf (pagesUpTo fetch k)).
Proof.
  induction fuel as [| fuel IH]; intros q acc r Hacc Hr;
    cbn [listMergedPullsLoop] in Hr;
    destruct (Nat.ltb_spec (List.length acc) n) as [Hlt | Hge].
  - discriminate Hr.
  - injection Hr as <-. exists q. rewrite Hacc. now rewrite firstn_firstn, Nat.min_id.
  - assert (Hall : acc = mergedOf (pagesUpTo fetch q)).
    { rewrite Hacc. apply firstn_short. now rewrite <- Hacc. }
    assert (Hscan : scanPulls n (fetch (q + 1)%nat) acc
                    = firstn n (mergedOf (pagesUpTo fetch (S q)))).
    { rewrite scanPulls_firstn by exact Hlt.
      rewrite pagesUpTo_S, mergedOf_app, <- Hall.
      now replace (q + 1)%nat with (S q) by lia. }
    destruct (List.length (fetch (q + 1)%nat) =? 0)%nat.
    + injection Hr as <-. exists q. rewrite Hacc.
      now rewrite firstn_firstn, Nat.min_id.
    + destruct (List.length (fetch (q + 1)%nat) <? 50)%nat.
      * injection Hr as <-. exists (S q). rewrite Hscan.
        now rewrite firstn_firstn, Nat.min_id.
      * replace (q + 1 + 1)%nat with (S q + 1)%nat in Hr by lia.
        exact (IH (S q) _ r Hscan Hr).
  - injection Hr as <-. exists q. rewrite Hacc.
    now rewrite firstn_firstn, Nat.min_id.
Qed.

Lemma listMergedPullsLoop_returns (fetch : nat -> list RawPull) (n i : nat) :
  forall fuel page acc,
    (List.length (fetch (page + i)) < 50)%nat -> (i < fuel)%nat ->
    exists r, listMergedPullsLoop fetch n fuel page acc = Some r.
Proof.
  induction i as [| i IH]; intros fuel page acc Hshort Hfuel;
    (destruct fuel as [| fuel]; [lia |]); cbn [listMergedPullsLoop];
    (destruct (List.length acc <? n)%nat; [| eexists; reflexivity]);
    (destruct (List.length (fetch page) =? 0)%nat; [eexists; reflexivity |]).
  - rewrite Nat.add_0_r in Hshort.
    replace (List.length (fetch page) <? 50)%nat with true
      by (symmetry; now apply Nat.ltb_lt).
    eexists; reflexivity.
  - destruct (List.length (fetch page) <? 50)%nat; [eexists; reflexivity |].
    apply IH; [| lia].
    now replace (page + 1 + i)%nat with (page + S i)%nat by lia.
Qed.

End PaginationFacts.

(** X26. [listPullFiles] returns the files of all pages up to the first
    page with fewer than 100 items, in order, as soon as the fuel covers
    those requests. *)
Theorem listPullFiles_complete
        (fetch : nat -> list RawFile) (k fuel : nat) :
  (1 <= k)%nat ->
  (forall j, (1 <= j < k)%nat -> (100 <= List.length (fetch j))%nat) ->
  (List.length (fetch k) < 100)%nat ->
  (k <= fuel)%nat ->
  listPullFiles fetch fuel = Some (map toPRFile (pagesUpTo fetch k)).
Proof.
  intros Hk Hfull Hshort Hfuel. unfold listPullFiles, pagesUpTo.
  destruct k as [| i]; [lia |].
  rewrite (listPullFilesLoop_short fetch i fuel 1%nat []).
  - reflexivity.
  - intros j Hj. apply Hfull. lia.
  - exact Hshort.
  - lia.
Qed.

Lemma listPullFiles_complete_witness :
  (1 <= 1)%nat
  /\ (List.length (sampleFilesListing 1) < 100)%nat
  /\ listPullFiles sampleFilesListing 1
     = Some [mkFile "src/a.ts" 3 0; mkFile "README.md" 0 0].
Proof.
  assert (H1 : (1 <= 1)%nat) by lia.
  assert (Hs : (List.length (sampleFilesListing 1) < 100)%nat)
    by (simpl; lia).
  split; [exact H1 |]. split; [exact Hs |].
  exact (listPullFiles_complete sampleFilesListing 1 1 H1
           (fun j Hj => ltac:(lia)) Hs H1).
Defined.

(** X27. Whatever [listMergedPulls] returns holds at most [n] numbers,
    and they are the first merged pull requests of the listing, in
    listing order: the result is the first [n] merged numbers of the
    pages 1 to [k], for some [k]. *)
Theorem listMergedPulls_prefix
        (fetch : nat -> list RawPull) (n fuel : nat) (r : list Z) :
  listMergedPulls fetch n fuel = Some r ->
  (List.length r <= n)%nat
  /\ exists k, r = firstn n (mergedOf (pagesUpTo fetch k)).
Proof.
  intros Hr. unfold listMergedPulls in Hr.
  destruct (listMergedPullsLoop_prefix fetch n fuel 0 [] r) as (k & Hk).
  - unfold pagesUpTo, mergedOf. simpl. now rewrite firstn_nil.
  - exact Hr.
  - split; [| now exists k]. rewrite Hk. apply firstn_le_length.
Qed.

Lemma listMergedPulls_prefix_witness :
  listMergedPulls samplePullsListing 2 5 = Some [12; 10]
  /\ (List.length [12; 10] <= 2)%nat.
Proof.
  assert (H : listMergedPulls samplePullsListing 2 5 = Some [12; 10])
    by reflexivity.
  split; [exact H |].
  exact (proj1 (listMergedPulls_prefix _ 2 5 [12; 10] H)).
Defined.

(** X28. [listMergedPulls] returns as soon as the fuel covers the
    requests up to a page with fewer than 50 items; asked for 0 pull
    requests it returns the empty list without any request. *)
Theorem listMergedPulls_returns
        (fetch : nat -> list RawPull) (n k fuel : nat) :
  ((1 <= k)%nat -> (List.length (fetch k) < 50)%nat -> (k <= fuel)%nat ->
   exists r, listMergedPulls fetch n fuel = Some r)
  /\ listMergedPulls fetch 0 0 = Some [].
Proof.
  split; [| reflexivity].
  intros Hk Hshort Hfuel. unfold listMergedPulls.
  destruct k as [| i]; [lia |].
  apply (listMergedPullsLoop_returns fetch n i); [exact Hshort | lia].
Qed.

Lemma listMergedPulls_returns_witness :
  (1 <= 1)%nat /\ (List.length (samplePullsListing 1) < 50)%nat
  /\ exists r, listMergedPulls samplePullsListing 20 1 = Some r.
Proof.
  assert (H1 : (1 <= 1)%nat) by lia.
  assert (Hs : (List.length (samplePullsListing 1) < 50)%nat)
    by (simpl; lia).
  split; [exact H1 |]. split; [exact Hs |].
  exact (proj1 (listMergedPulls_returns samplePullsListing 20 1 1) H1 Hs H1).
Defined.

(** ** formatSigned *)

Section FormatFacts.

Lemma to_int_parses (n : Z) :
  DecimalString.NilZero.int_of_string (numberToString n) = Some (Z.to_int n).
Proof.
  unfold numberToString. apply DecimalString.NilZero.isi.
  - destruct n as [| p | p]; simpl; try discriminate.
    intros H. injection H as H. exact (DecimalPos.Unsigned.to_uint_nonnil p H).
  - destruct n as [| p | p]; simpl; try discriminate.
    intros H. injection H as H. exact (DecimalPos.Unsigned.to_uint_nonnil p H).
Qed.

Lemma numberToString_inj (a b : Z) :
  numberToString a = numberToString b -> a = b.
Proof.
  intros H.
  apply (f_equal DecimalString.NilZero.int_of_string) in H.
  rewrite !to_int_parses in H. injection H as H.
  now apply DecimalZ.to_int_inj.
Qed.

Lemma numberToString_nonpos_head (n : Z) :
  n <= 0 ->
  exists c s, numberToString n = String c s /\ c <> "+"%char.
Proof.
  intros Hn. destruct n as [| p | p]; [| lia |].
  - exists "0"%char, EmptyString. split; [reflexivity | discriminate].
  - exists "-"%char. eexists. split; [reflexivity | discriminate].
Qed.

End FormatFacts.

(** X29. [formatSigned], on whole numbers, gives different texts for
    different numbers; the text starts with a plus sign exactly for the
    positive ones and with a minus sign exactly for the negative ones,
    and it is "0" for zero. *)
Theorem formatSigned_sign (a b : Z) :
  (formatSigned a = formatSigned b -> a = b)
  /\ (0 < a <-> exists s, formatSigned a = String "+" s)
  /\ (a < 0 <-> exists s, formatSigned a = String "-" s)
  /\ formatSigned 0 = "0"%string.
Proof.
  assert (Hplus : forall n, 0 < n <-> exists s, formatSigned n = String "+" s).
  { intros n. unfold formatSigned. destruct (Z.gtb_spec n 0) as [Hn | Hn].
    - split; [intros _; eexists; reflexivity | intros _; exact Hn].
    - split; [lia |]. intros (s & Hs).
      destruct (numberToString_nonpos_head n Hn) as (c & s' & E & Hc).
      rewrite E in Hs. injection Hs as Hc' _. contradiction. }
  split; [| split; [apply Hplus | split; [| reflexivity]]].
  - intros H. unfold formatSigned in H.
    destruct (Z.gtb_spec a 0) as [Ha | Ha];
      destruct (Z.gtb_spec b 0) as [Hb | Hb].
    + injection H as H. now apply numberToString_inj.
    + destruct (numberToString_nonpos_head b Hb) as (c & s' & E & Hc).
      rewrite E in H. injection H as Hc' _. now symmetry in Hc'.
    + destruct (numberToString_nonpos_head a Ha) as (c & s' & E & Hc).
      rewrite E in H. injection H as Hc' _. contradiction.
    + now apply numberToString_inj.
  - unfold formatSigned. destruct a as [| p | p].
    + split; [lia | intros (s & Hs); discriminate Hs].
    + split; [lia | intros (s & Hs); discriminate Hs].
    + split; [intros _; eexists; reflexivity | lia].
Qed.

Lemma formatSigned_sign_witness :
  formatSigned 7 = formatSigned 7 /\ formatSigned 7 = "+7"%string
  /\ formatSigned (-12) = "-12"%string /\ 7 = 7.
Proof.
  assert (H : formatSigned 7 = formatSigned 7) by reflexivity.
  split; [exact H |]. split; [reflexivity |]. split; [reflexivity |].
  exact (proj1 (formatSigned_sign 7 7) H).
Defined.

(** ** The hotspot list survives being stored *)

Section StoredHotspots.

Lemma fold_add_fresh (l : list string) :
  forall s : JSSet.t,
    NoDup (s ++ l) -> fold_left JSSet.add l s = s ++ l.
Proof.
  induction l as [| x l IH]; intros s Hnd; simpl.
  - now rewrite app_nil_r.
  - assert (Hx : JSSet.has s x = false).
    { destruct (JSSet.has s x) eqn:E; [| reflexivity].
      apply has_In in E. apply NoDup_remove_2 in Hnd.
      exfalso. apply Hnd. apply in_or_app. now left. }
    unfold JSSet.add at 2. rewrite Hx.
    rewrite IH; [now rewrite <- app_assoc |].
    now rewrite <- app_assoc.
Qed.

Lemma of_list_NoDup_id (l : list string) : NoDup l -> JSSet.of_list l = l.
Proof. intros H. unfold JSSet.of_list. now rewrite fold_add_fresh. Qed.

End StoredHotspots.

(** X30. The baseline stores its hotspot set as an array and [main.ts]
    builds a set from that array again: this gives back the same set, in
    the same order, so an analysis against the stored baseline counts in
    [H] exactly the files whose path is a hotspot. *)
Theorem stored_hotspots_roundtrip
        (n : nat) (merged : list (list PRFile)) (files : list PRFile) :
  let hot := hotspotFiles (computeBaseline n merged) in
  JSSet.of_list hot = hot
  /\ cH (classifyFiles files (JSSet.of_list hot))
     = countIf (fun f => if in_dec string_dec (filename f) hot
                         then true else false) files.
Proof.
  cbv zeta.
  assert (Hnd : NoDup (hotspotFiles (computeBaseline n merged))).
  { rewrite hotspotFiles_computeBaseline. apply of_list_NoDup. }
  rewrite (of_list_NoDup_id _ Hnd). split; [reflexivity |].
  destruct (classifyFiles_fields files (hotspotFiles (computeBaseline n merged)))
    as (_ & _ & _ & _ & _ & _ & HH).
  rewrite HH. unfold countIf. f_equal. f_equal.
  apply filter_ext. intros f.
  destruct (in_dec string_dec (filename f)
              (hotspotFiles (computeBaseline n merged))) as [Hin | Hin].
  - now apply has_In.
  - destruct (JSSet.has (hotspotFiles (computeBaseline n merged)) (filename f))
      eqn:E; [| reflexivity].
    apply has_In in E. contradiction.
Qed.
